(** * TSIG generation and validation (tsig.go), embedded in Rocq

    The file follows src/tsig.go of the dns package: the [RR_TSIG] record,
    the [tsigWireFmt] projection, [tsigToBuf], [Generate] and [Verify].

    Go values are modelled as follows.
    - [string] is a Rocq [string] (a sequence of 8-bit characters), [[]byte]
      is a [list byte]; the conversions [[]byte(s)] and [string(b)] are
      [list_byte_of_string] and [string_of_list_byte].
    - [uint16], [uint32], [uint64] are [Z]; the one narrowing conversion of
      the file, [uint16(len(rr.MAC))], is written out with [mod].
    - [*Msg] and [*RR_TSIG] are pointers into a store; a dereference of a
      pointer that is not allocated is a run-time panic.
    - [hmac.NewMD5] of the Go library is HMAC (RFC 2104) over MD5 (RFC 1321),
      implemented below and checked against the RFC test vectors.
    - What tsig.go takes from the rest of the package ([Msg.Pack],
      [packStruct], [unpackBase64], [packBase64], [TypeTSIG]) is the class
      [Package]; the properties hold for every instance of it. One instance,
      [Wirefmt.package], gives the concrete inputs. *)

From Stdlib Require Import ZArith List Strings.String Strings.Ascii Strings.Byte Bool Lia.
From stdpp Require Import base option list gmap.
From Stdlib Require DecimalString DecimalZ DecimalPos.

Import ListNotations.
Local Open Scope Z_scope.

(** ** Bytes and fixed-width integers *)

Definition byte_to_Z (b : byte) : Z := Z.of_N (Byte.to_N b).

Definition byte_of_Z (z : Z) : byte :=
  match Byte.of_N (Z.to_N (z mod 256)) with
  | Some b => b
  | None => x00
  end.

(** [be n z]: the [n] low-order bytes of [z], most significant first. *)
Fixpoint be (n : nat) (z : Z) : list byte :=
  match n with
  | O => []
  | S k => byte_of_Z (Z.shiftr z (8 * Z.of_nat k)) :: be k z
  end.

(** [le n z]: the [n] low-order bytes of [z], least significant first. *)
Fixpoint le (n : nat) (z : Z) : list byte :=
  match n with
  | O => []
  | S k => byte_of_Z z :: le k (Z.shiftr z 8)
  end.

Fixpoint le_decode (bs : list byte) : Z :=
  match bs with
  | [] => 0
  | b :: r => byte_to_Z b + 256 * le_decode r
  end.

Definition hex_digit (z : Z) : ascii :=
  ascii_of_nat (Z.to_nat (if z <? 10 then 48 + z else 87 + z)).

Fixpoint to_hex (bs : list byte) : string :=
  match bs with
  | [] => EmptyString
  | b :: r =>
      String (hex_digit (byte_to_Z b / 16))
        (String (hex_digit (byte_to_Z b mod 16)) (to_hex r))
  end.

(** ** MD5 (RFC 1321) *)

Module MD5.

Definition w32 (x : Z) : Z := x mod 2 ^ 32.

Definition rotl (x s : Z) : Z :=
  w32 (Z.lor (Z.shiftl x s) (Z.shiftr x (32 - s))).

Definition lnot32 (x : Z) : Z := Z.lxor x 0xffffffff.

Definition K : list Z :=
  [ 0xd76aa478; 0xe8c7b756; 0x242070db; 0xc1bdceee;
    0xf57c0faf; 0x4787c62a; 0xa8304613; 0xfd469501;
    0x698098d8; 0x8b44f7af; 0xffff5bb1; 0x895cd7be;
    0x6b901122; 0xfd987193; 0xa679438e; 0x49b40821;
    0xf61e2562; 0xc040b340; 0x265e5a51; 0xe9b6c7aa;
    0xd62f105d; 0x02441453; 0xd8a1e681; 0xe7d3fbc8;
    0x21e1cde6; 0xc33707d6; 0xf4d50d87; 0x455a14ed;
    0xa9e3e905; 0xfcefa3f8; 0x676f02d9; 0x8d2a4c8a;
    0xfffa3942; 0x8771f681; 0x6d9d6122; 0xfde5380c;
    0xa4beea44; 0x4bdecfa9; 0xf6bb4b60; 0xbebfbc70;
    0x289b7ec6; 0xeaa127fa; 0xd4ef3085; 0x04881d05;
    0xd9d4d039; 0xe6db99e5; 0x1fa27cf8; 0xc4ac5665;
    0xf4292244; 0x432aff97; 0xab9423a7; 0xfc93a039;
    0x655b59c3; 0x8f0ccc92; 0xffeff47d; 0x85845dd1;
    0x6fa87e4f; 0xfe2ce6e0; 0xa3014314; 0x4e0811a1;
    0xf7537e82; 0xbd3af235; 0x2ad7d2bb; 0xeb86d391 ].

Definition shifts : list Z :=
  [ 7; 12; 17; 22; 7; 12; 17; 22; 7; 12; 17; 22; 7; 12; 17; 22;
    5; 9; 14; 20; 5; 9; 14; 20; 5; 9; 14; 20; 5; 9; 14; 20;
    4; 11; 16; 23; 4; 11; 16; 23; 4; 11; 16; 23; 4; 11; 16; 23;
    6; 10; 15; 21; 6; 10; 15; 21; 6; 10; 15; 21; 6; 10; 15; 21 ].

Record state := mk { sa : Z; sb : Z; sc : Z; sd : Z }.

Definition init : state :=
  mk 0x67452301 0xefcdab89 0x98badcfe 0x10325476.

(** The auxiliary function and the message word index of step [i]. *)
Definition mix (i : nat) (b c d : Z) : Z * nat :=
  if (i <? 16)%nat then
    (Z.lor (Z.land b c) (Z.land (lnot32 b) d), i)
  else if (i <? 32)%nat then
    (Z.lor (Z.land d b) (Z.land (lnot32 d) c), ((5 * i + 1) mod 16)%nat)
  else if (i <? 48)%nat then
    (Z.lxor b (Z.lxor c d), ((3 * i + 5) mod 16)%nat)
  else
    (Z.lxor c (Z.lor b (lnot32 d)), ((7 * i) mod 16)%nat).

Definition step (M : list Z) (st : state) (i : nat) : state :=
  let '(f, g) := mix i (sb st) (sc st) (sd st) in
  let x := w32 (f + sa st + nth i K 0 + nth g M 0) in
  mk (sd st) (w32 (sb st + rotl x (nth i shifts 0))) (sb st) (sc st).

Fixpoint words (n : nat) (block : list byte) : list Z :=
  match n with
  | O => []
  | S k => le_decode (firstn 4 block) :: words k (skipn 4 block)
  end.

Definition compress (st : state) (block : list byte) : state :=
  let r := fold_left (step (words 16 block)) (seq 0 64) st in
  mk (w32 (sa st + sa r)) (w32 (sb st + sb r))
     (w32 (sc st + sc r)) (w32 (sd st + sd r)).

Definition pad (msg : list byte) : list byte :=
  let n := Z.of_nat (length msg) in
  msg ++ [x80] ++ repeat x00 (Z.to_nat ((55 - n) mod 64))
      ++ le 8 ((8 * n) mod 2 ^ 64).

Fixpoint blocks (n : nat) (l : list byte) : list (list byte) :=
  match n with
  | O => []
  | S k => firstn 64 l :: blocks k (skipn 64 l)
  end.

Definition output (st : state) : list byte :=
  le 4 (sa st) ++ le 4 (sb st) ++ le 4 (sc st) ++ le 4 (sd st).

Definition sum (msg : list byte) : list byte :=
  let p := pad msg in
  output (fold_left compress (blocks (length p / 64) p) init).

End MD5.

(** ** HMAC-MD5 (RFC 2104): what [hmac.NewMD5(key)], a write of the data
    and [Sum()] compute. *)

Definition xor_pad (c : Z) (key : list byte) : list byte :=
  map (fun b => byte_of_Z (Z.lxor (byte_to_Z b) c)) key.

Definition hmacMD5 (key data : list byte) : list byte :=
  let k0 := if (64 <? length key)%nat then MD5.sum key else key in
  let k := k0 ++ repeat x00 (64 - length k0) in
  MD5.sum (xor_pad 0x5c k ++ MD5.sum (xor_pad 0x36 k ++ data)).

Arguments MD5.sum : simpl never.
Arguments hmacMD5 : simpl never.

(** ** The records of tsig.go *)

Definition HmacMD5 : string := "HMAC-MD5.SIG-ALG.REG.INT".
Definition HmacSHA1 : string := "hmac-sha1".
Definition HmacSHA256 : string := "hmac-sha256".

(** Modelled from the spec: [RR_Header] is declared outside tsig.go; the
    spec describes it as the record-header container with owner name, class,
    ttl and type, and tsig.go reads exactly these four fields. *)
Record RR_Header := mkHeader {
  Name : string;
  Rrtype : Z;
  Class : Z;
  Ttl : Z
}.

Record RR_TSIG := mkTSIG {
  Hdr : RR_Header;
  Algorithm : string;
  TimeSigned : Z;
  Fudge : Z;
  MACSize : Z;
  MAC : string;
  OrigId : Z;
  Error : Z;
  OtherLen : Z;
  OtherData : string
}.

(** The values that are put in wire format for the MAC (RFC 2845, 3.4.2);
    MACSize, MAC and OrigId are not among them. *)
Module Wire.
Record tsigWireFmt := mk {
  Name : string;
  Class : Z;
  Ttl : Z;
  Algorithm : string;
  TimeSigned : Z;
  Fudge : Z;
  Error : Z;
  OtherLen : Z;
  OtherData : string
}.
End Wire.
Abbreviation tsigWireFmt := Wire.tsigWireFmt.

(** The [RR] interface. tsig.go calls only [Header()] on the elements of
    [msg.Extra]; a record of another type is its header and its rdata.
    The elements are held by value and none of them is nil. In Go an element
    is a pointer: the development covers the calls in which every element of
    [Extra] is a record and in which the record that [Generate] writes is
    not yet held by the message, as when the record is attached after it
    has been signed. *)
Inductive RR :=
| RR_tsig (r : RR_TSIG)
| RR_other (h : RR_Header) (rdata : list byte).

Definition Header (rr : RR) : RR_Header :=
  match rr with
  | RR_tsig r => Hdr r
  | RR_other h _ => h
  end.

(** The content of a [Msg] that tsig.go never reads or writes: the header
    fields other than [Id], and the question, answer and authority
    sections. *)
Class MsgShape := {
  HdrRest : Type;
  Sections : Type
}.

Record MsgHdr_t `{MsgShape} := mkMsgHdr {
  Id : Z;
  hdr_rest : HdrRest
}.

Record Msg `{MsgShape} := mkMsg {
  MsgHdr : MsgHdr_t;
  sections : Sections;
  Extra : list RR
}.

(** The rest of the package, as tsig.go uses it.
    - [TypeTSIG]: the record type code of TSIG.
    - [Pack m]: [m.Pack()], the wire form of the message, or failure.
    - [packStruct t buf off]: packs [t] into [buf] from offset [off]; gives
      the buffer after the writes, the offset after the last byte written,
      and the success flag.
    - [unpackBase64 b]: has a single result and no error result.
    - [packBase64 b]: the bytes, or [None] for a non-nil error. *)
Class Package `{MsgShape} := {
  TypeTSIG : Z;
  Pack : Msg -> option (list byte);
  packStruct : tsigWireFmt -> list byte -> Z -> list byte * Z * bool;
  unpackBase64 : list byte -> string;
  packBase64 : list byte -> option (list byte)
}.

(** ** Field updates *)

Definition set_MAC (v : string) (r : RR_TSIG) : RR_TSIG :=
  mkTSIG (Hdr r) (Algorithm r) (TimeSigned r) (Fudge r) (MACSize r) v
         (OrigId r) (Error r) (OtherLen r) (OtherData r).

Definition set_MACSize (v : Z) (r : RR_TSIG) : RR_TSIG :=
  mkTSIG (Hdr r) (Algorithm r) (TimeSigned r) (Fudge r) v (MAC r)
         (OrigId r) (Error r) (OtherLen r) (OtherData r).

Definition set_OrigId (v : Z) (r : RR_TSIG) : RR_TSIG :=
  mkTSIG (Hdr r) (Algorithm r) (TimeSigned r) (Fudge r) (MACSize r) (MAC r)
         v (Error r) (OtherLen r) (OtherData r).

Definition set_Id `{MsgShape} (v : Z) (m : Msg) : Msg :=
  mkMsg _ (mkMsgHdr _ v (hdr_rest (MsgHdr m))) (sections m) (Extra m).

Definition set_Extra `{MsgShape} (v : list RR) (m : Msg) : Msg :=
  mkMsg _ (MsgHdr m) (sections m) v.

(** ** The store and the monad of computations *)

Definition ptr := positive.

(** What a call does besides its writes to the store: the debugging print
    of [tsigToBuf], and the digest computations. *)
Inductive event :=
| Printf (buf : list byte)
| Digest (key data : list byte).

Record State `{MsgShape} := mkState {
  msgs : gmap ptr Msg;
  tsigs : gmap ptr RR_TSIG;
  trace : list event
}.

(** The three updates of a state. *)
Definition with_msg `{MsgShape} (p : ptr) (m : Msg) (st : State) : State :=
  mkState _ (<[p := m]> (msgs st)) (tsigs st) (trace st).

Definition with_tsig `{MsgShape} (p : ptr) (r : RR_TSIG) (st : State) : State :=
  mkState _ (msgs st) (<[p := r]> (tsigs st)) (trace st).

Definition log `{MsgShape} (es : list event) (st : State) : State :=
  mkState _ (msgs st) (tsigs st) (trace st ++ es).

(** A computation maps a state to a result and a state, or panics. *)
Definition M `{MsgShape} (A : Type) : Type := State -> option (A * State).

#[global] Instance M_ret `{MsgShape} : MRet M :=
  fun A (a : A) st => Some (a, st).

#[global] Instance M_bind `{MsgShape} : MBind M :=
  fun A B (k : A -> M B) (c : M A) st =>
    match c st with
    | Some (a, st') => k a st'
    | None => None
    end.

Definition panic `{MsgShape} {A : Type} : M A := fun _ => None.

Definition load_msg `{MsgShape} (p : ptr) : M Msg :=
  fun st => match msgs st !! p with
            | Some m => Some (m, st)
            | None => None
            end.

Definition store_msg `{MsgShape} (p : ptr) (m : Msg) : M unit :=
  fun st => Some (tt, with_msg p m st).

Definition load_tsig `{MsgShape} (p : ptr) : M RR_TSIG :=
  fun st => match tsigs st !! p with
            | Some r => Some (r, st)
            | None => None
            end.

Definition store_tsig `{MsgShape} (p : ptr) (r : RR_TSIG) : M unit :=
  fun st => Some (tt, with_tsig p r st).

Definition emit `{MsgShape} (e : event) : M unit :=
  fun st => Some (tt, log [e] st).

(** [make([]byte, n)]: [n] zero bytes. *)
Definition make (n : nat) : list byte := replicate n x00.
Arguments make : simpl never.

(** [buf[:n]] for a slice whose capacity is its length. *)
Definition slice_to `{MsgShape} (buf : list byte) (n : Z) : M (list byte) :=
  if (0 <=? n) && (n <=? Z.of_nat (length buf))
  then mret (take (Z.to_nat n) buf)
  else panic.

(** [h := hmac.NewMD5(key); io.WriteString(h, data); h.Sum()] *)
Definition hmac_sum `{MsgShape} (key : list byte) (data : string) : M (list byte) :=
  emit (Digest key (list_byte_of_string data));;
  mret (hmacMD5 key (list_byte_of_string data)).

(** ** tsigToBuf, Generate, Verify *)

Definition tsigWire (r : RR_TSIG) : tsigWireFmt :=
  Wire.mk (Name (Hdr r)) (Class (Hdr r)) (Ttl (Hdr r))
          (Algorithm r) (TimeSigned r) (Fudge r)
          (Error r) (OtherLen r) (OtherData r).

Definition tsigToBuf `{Package} (rr msg : ptr) : M (list byte * bool) :=
  let buf := make 4096 in
  r ← load_tsig rr;
  let tsig := tsigWire r in
  let '(buf, n, ok1) := packStruct tsig buf 0 in
  if negb ok1 then mret ([], false) else
  buf ← slice_to buf n;
  m ← load_msg msg;
  match Pack m with
  | None => mret ([], false)
  | Some msgbuf =>
      let buf := msgbuf ++ buf in
      emit (Printf buf);;
      mret (buf, true)
  end.

Definition Generate `{Package} (rr msg : ptr) (secret : string) : M bool :=
  let rawsecret := unpackBase64 (list_byte_of_string secret) in
  '(buf, ok) ← tsigToBuf rr msg;
  if negb ok then mret false else
  mac ← hmac_sum (list_byte_of_string rawsecret) (string_of_list_byte buf);
  r ← load_tsig rr;
  store_tsig rr (set_MAC (string_of_list_byte mac) r);;
  r ← load_tsig rr;
  store_tsig rr (set_MACSize (Z.of_nat (String.length (MAC r)) mod 2 ^ 16) r);;
  r ← load_tsig rr;
  m ← load_msg msg;
  store_tsig rr (set_OrigId (Id (MsgHdr m)) r);;
  mret true.

Definition Verify `{Package} (rr msg : ptr) (secret : string) : M bool :=
  match packBase64 (list_byte_of_string secret) with
  | None => mret false
  | Some rawsecret =>
      let msg2 := msg in
      m ← load_msg msg2;
      if (length (Extra m) <? 1)%nat then mret false else
      match Extra m !! (length (Extra m) - 1)%nat with
      | None => panic
      | Some tsigrr =>
          if negb (Rrtype (Header tsigrr) =? TypeTSIG) then mret false else
          r ← load_tsig rr;
          m ← load_msg msg2;
          store_msg msg2 (set_Id (OrigId r) m);;
          m ← load_msg msg2;
          store_msg msg2 (set_Extra (take (length (Extra m) - 1) (Extra m)) m);;
          '(buf, ok) ← tsigToBuf rr msg2;
          if negb ok then mret false else
          mac ← hmac_sum rawsecret (string_of_list_byte buf);
          r ← load_tsig rr;
          mret (String.eqb (string_of_list_byte mac) (MAC r))
      end
  end.

(** ** Base64 (RFC 4648, standard alphabet with padding) *)

(** Modelled from the spec: [unpackBase64] and [packBase64] are helpers of
    the package that are declared outside tsig.go. The spec says that the
    secret is supplied as a base64 string and that decoding can fail.
    [packBase64] is called with an error result in [Verify]: it is the
    decoder, which reports malformed text ([decode] below). [unpackBase64]
    is its opposite and has a single result: it produces base64 text from
    bytes, which cannot fail ([encode] below). In the package the pack
    helpers turn presentation form into wire form, as [Pack] and
    [packStruct] do, and the unpack helpers wire form into presentation
    form. *)
Module Base64.

Definition enc6 (z : Z) : ascii :=
  ascii_of_nat (Z.to_nat
    (if z <? 26 then 65 + z
     else if z <? 52 then 97 + (z - 26)
     else if z <? 62 then 48 + (z - 52)
     else if z =? 62 then 43 else 47)).

Definition quad (n : Z) (k : nat) : string :=
  let c i := enc6 (Z.land (Z.shiftr n (18 - 6 * i)) 63) in
  let pad := "="%char in
  String (c 0) (String (c 1)
    (String (if (2 <=? k)%nat then c 2 else pad)
       (String (if (3 <=? k)%nat then c 3 else pad) EmptyString))).

(** Modelled from the spec: [unpackBase64], the base64 text of the bytes. *)
Fixpoint encode (l : list byte) : string :=
  match l with
  | [] => EmptyString
  | [a] => quad (byte_to_Z a * 65536) 1
  | [a; b] => quad (byte_to_Z a * 65536 + byte_to_Z b * 256) 2
  | a :: b :: c :: r =>
      (quad (byte_to_Z a * 65536 + byte_to_Z b * 256 + byte_to_Z c) 3
         ++ encode r)%string
  end.

Definition dec6 (b : byte) : option Z :=
  let z := byte_to_Z b in
  if (65 <=? z) && (z <=? 90) then Some (z - 65)
  else if (97 <=? z) && (z <=? 122) then Some (z - 97 + 26)
  else if (48 <=? z) && (z <=? 57) then Some (z - 48 + 52)
  else if z =? 43 then Some 62
  else if z =? 47 then Some 63
  else None.

Definition is_pad (b : byte) : bool := byte_to_Z b =? 61.

(** The last group of four characters, where padding may stand. *)
Definition last_quad (a b c d : byte) : option (list byte) :=
  x ← dec6 a; y ← dec6 b;
  let n2 := x * 262144 + y * 4096 in
  if is_pad c && is_pad d then Some (firstn 1 (be 3 n2))
  else
    z ← dec6 c;
    if is_pad d then Some (firstn 2 (be 3 (n2 + z * 64)))
    else w ← dec6 d; Some (be 3 (n2 + z * 64 + w)).

Fixpoint decode_quads (l : list byte) : option (list byte) :=
  match l with
  | [] => Some []
  | a :: b :: c :: d :: r =>
      match r with
      | [] => last_quad a b c d
      | _ =>
          x ← dec6 a; y ← dec6 b; z ← dec6 c; w ← dec6 d;
          rest ← decode_quads r;
          Some (be 3 (x * 262144 + y * 4096 + z * 64 + w) ++ rest)
      end
  | _ => None
  end.

Definition is_newline (b : byte) : bool :=
  (byte_to_Z b =? 10) || (byte_to_Z b =? 13).

(** Modelled from the spec: [packBase64], the bytes of the base64 text, or
    the error for malformed text. Carriage returns and line feeds are
    skipped, as the Go decoder does. *)
Definition decode (l : list byte) : option (list byte) :=
  decode_quads (List.filter (fun b => negb (is_newline b)) l).

End Base64.

(** ** A wire format for the message and for the TSIG variables *)

(** Modelled from the spec: [Msg.Pack], [packStruct] and the [Msg] type are
    declared outside tsig.go. The spec asks for domain names without
    compression, fixed-width big-endian integers (16, 32 and 48 bits here),
    opaque byte strings of the declared length, and failure when the declared
    and the actual length of [OtherData] differ or the buffer is too small. *)
Module Wirefmt.

Fixpoint labels (cur : list byte) (s : list byte) : list (list byte) :=
  match s with
  | [] => match cur with [] => [] | _ => [rev cur] end
  | c :: r =>
      if byte_to_Z c =? 46 then rev cur :: labels [] r
      else labels (c :: cur) r
  end.

Definition packLabel (l : list byte) : option (list byte) :=
  if (0 <? length l)%nat && (length l <? 64)%nat
  then Some (be 1 (Z.of_nat (length l)) ++ l)
  else None.

Fixpoint packLabels (ls : list (list byte)) : option (list byte) :=
  match ls with
  | [] => Some [x00]
  | l :: r => a ← packLabel l; b ← packLabels r; Some (a ++ b)
  end.

(** A name is its labels, each behind its length, and a zero byte; the root
    name is the zero byte alone. *)
Definition packDomainName (s : string) : option (list byte) :=
  if String.eqb s "." then Some [x00]
  else packLabels (labels [] (list_byte_of_string s)).

Definition fits (w : nat) (z : Z) : bool := (0 <=? z) && (z <? 2 ^ (8 * Z.of_nat w)).

Definition packInt (w : nat) (z : Z) : option (list byte) :=
  if fits w z then Some (be w z) else None.

Definition tsigVariables (t : tsigWireFmt) : option (list byte) :=
  name ← packDomainName (Wire.Name t);
  class ← packInt 2 (Wire.Class t);
  ttl ← packInt 4 (Wire.Ttl t);
  alg ← packDomainName (Wire.Algorithm t);
  time ← packInt 6 (Wire.TimeSigned t);
  fudge ← packInt 2 (Wire.Fudge t);
  err ← packInt 2 (Wire.Error t);
  olen ← packInt 2 (Wire.OtherLen t);
  if Wire.OtherLen t =? Z.of_nat (String.length (Wire.OtherData t)) then
    Some (name ++ class ++ ttl ++ alg ++ time ++ fudge ++ err ++ olen
            ++ list_byte_of_string (Wire.OtherData t))
  else None.

(** Modelled from the spec: [packStruct] on a [tsigWireFmt]. The bytes are
    written into [buf] from [off]; when they do not fit, the result is the
    length of the buffer and failure. *)
Definition packVariables (t : tsigWireFmt) (buf : list byte) (off : Z)
  : list byte * Z * bool :=
  match tsigVariables t with
  | Some bs =>
      if (0 <=? off) && (off + Z.of_nat (length bs) <=? Z.of_nat (length buf))
      then (take (Z.to_nat off) buf ++ bs
              ++ drop (Z.to_nat off + length bs) buf,
            off + Z.of_nat (length bs), true)
      else (buf, Z.of_nat (length buf), false)
  | None => (buf, Z.of_nat (length buf), false)
  end.

Definition tsigRdata (r : RR_TSIG) : option (list byte) :=
  alg ← packDomainName (Algorithm r);
  time ← packInt 6 (TimeSigned r);
  fudge ← packInt 2 (Fudge r);
  msize ← packInt 2 (MACSize r);
  oid ← packInt 2 (OrigId r);
  err ← packInt 2 (Error r);
  olen ← packInt 2 (OtherLen r);
  Some (alg ++ time ++ fudge ++ msize ++ list_byte_of_string (MAC r)
          ++ oid ++ err ++ olen ++ list_byte_of_string (OtherData r)).

Definition packRR (rr : RR) : option (list byte) :=
  name ← packDomainName (Name (Header rr));
  type ← packInt 2 (Rrtype (Header rr));
  class ← packInt 2 (Class (Header rr));
  ttl ← packInt 4 (Ttl (Header rr));
  rdata ← match rr with
          | RR_tsig r => tsigRdata r
          | RR_other _ d => Some d
          end;
  rdlen ← packInt 2 (Z.of_nat (length rdata));
  Some (name ++ type ++ class ++ ttl ++ rdlen ++ rdata).

Fixpoint packRRs (l : list RR) : option (list byte) :=
  match l with
  | [] => Some []
  | rr :: r => a ← packRR rr; b ← packRRs r; Some (a ++ b)
  end.

Record Question := mkQuestion { QName : string; Qtype : Z; Qclass : Z }.

Definition packQuestion (q : Question) : option (list byte) :=
  name ← packDomainName (QName q);
  type ← packInt 2 (Qtype q);
  class ← packInt 2 (Qclass q);
  Some (name ++ type ++ class).

Fixpoint packQuestions (l : list Question) : option (list byte) :=
  match l with
  | [] => Some []
  | q :: r => a ← packQuestion q; b ← packQuestions r; Some (a ++ b)
  end.

Record Sections_t := mkSections {
  Questions : list Question;
  Answer : list RR;
  Ns : list RR
}.

(** Modelled from the spec: the header keeps, besides the id, its second
    16-bit word (the response bit, opcode, flags and rcode). *)
#[global] Instance shape : MsgShape := {| HdrRest := Z; Sections := Sections_t |}.

(** Modelled from the spec: [Msg.Pack], the twelve bytes of the header and
    the four sections. *)
Definition packMsg (m : Msg) : option (list byte) :=
  id ← packInt 2 (Id (MsgHdr m));
  bits ← packInt 2 (hdr_rest (MsgHdr m));
  qd ← packInt 2 (Z.of_nat (length (Questions (sections m))));
  an ← packInt 2 (Z.of_nat (length (Answer (sections m))));
  ns ← packInt 2 (Z.of_nat (length (Ns (sections m))));
  ar ← packInt 2 (Z.of_nat (length (Extra m)));
  q ← packQuestions (Questions (sections m));
  a ← packRRs (Answer (sections m));
  n ← packRRs (Ns (sections m));
  e ← packRRs (Extra m);
  Some (id ++ bits ++ qd ++ an ++ ns ++ ar ++ q ++ a ++ n ++ e).

(** Modelled from the spec: the package around tsig.go. 250 is the type code
    of TSIG in RFC 2845. *)
#[global] Instance package : Package := {|
  TypeTSIG := 250;
  Pack := packMsg;
  packStruct := packVariables;
  unpackBase64 := fun b => Base64.encode b;
  packBase64 := Base64.decode
|}.

End Wirefmt.

(** ** What the three functions compute from the contents of their arguments *)

(** The working buffer of [tsigToBuf]: 4096 zero bytes. *)
Definition scratch : list byte := make 4096.

(** serialize(projection): the front of the working buffer up to the offset
    that [packStruct] returns. [None] when [packStruct] reports failure or
    returns an offset outside the buffer. *)
Definition serialize `{Package} (t : tsigWireFmt) : option (list byte) :=
  let '(buf, n, ok) := packStruct t scratch 0 in
  if ok && (0 <=? n) && (n <=? Z.of_nat (length buf))
  then Some (take (Z.to_nat n) buf)
  else None.

(** The three ways [tsigToBuf] ends on a record [r] and a message [m]. *)
Inductive built :=
| Panics
| Fails
| Built (buf : list byte).

Definition build `{Package} (r : RR_TSIG) (m : Msg) : built :=
  let '(buf, n, ok1) := packStruct (tsigWire r) scratch 0 in
  if negb ok1 then Fails
  else if (0 <=? n) && (n <=? Z.of_nat (length buf)) then
    match Pack m with
    | None => Fails
    | Some msgbuf => Built (msgbuf ++ take (Z.to_nat n) buf)
    end
  else Panics.

(** The digest as it is stored in [rr.MAC]. *)
Definition mac_of (key buf : list byte) : string :=
  string_of_list_byte (hmacMD5 key buf).

(** The record after the three assignments of [Generate]. *)
Definition completed (r : RR_TSIG) (mac : string) (id : Z) : RR_TSIG :=
  set_OrigId id
    (set_MACSize (Z.of_nat (String.length mac) mod 2 ^ 16) (set_MAC mac r)).

(** The message after the two assignments of [Verify]. *)
Definition stripped `{MsgShape} (r : RR_TSIG) (m : Msg) : Msg :=
  set_Extra (take (length (Extra m) - 1) (Extra m)) (set_Id (OrigId r) m).

(** The algorithm names that tsig.go declares. *)
Definition recognized (alg : string) : bool :=
  String.eqb alg HmacMD5 || String.eqb alg HmacSHA1 || String.eqb alg HmacSHA256.

(** ** The caller's side of a signed exchange *)

(** [msg.Extra = append(msg.Extra, rr)]: the caller attaches the completed
    record as the last record of the additional section. The message gets
    the contents that the record has at that moment; nothing below writes
    the record after it has been attached. *)
Definition attach `{MsgShape} (rr msg : ptr) : M unit :=
  r ← load_tsig rr;
  m ← load_msg msg;
  store_msg msg (set_Extra (Extra m ++ [RR_tsig r]) m).

(** A forwarder rewrites the header id of the transmitted message. *)
Definition rewrite_id `{MsgShape} (msg : ptr) (id : Z) : M unit :=
  m ← load_msg msg;
  store_msg msg (set_Id id m).

(** Sign, attach, verify. *)
Definition roundtrip `{Package} (rr msg : ptr) (secret : string) : M bool :=
  ok ← Generate rr msg secret;
  if negb ok then mret false else
  attach rr msg;;
  Verify rr msg secret.

(** Sign, attach, let a forwarder rewrite the header id, verify. *)
Definition forwarded `{Package}
    (rr msg : ptr) (secret : string) (id : Z) : M bool :=
  ok ← Generate rr msg secret;
  if negb ok then mret false else
  attach rr msg;;
  rewrite_id msg id;;
  Verify rr msg secret.

(** The message [m0] as it travels: the record [t] attached as the last
    additional record, and the header id set to [id]. *)
Definition transmitted `{MsgShape} (m0 : Msg) (t : RR) (id : Z) : Msg :=
  set_Id id (set_Extra (Extra m0 ++ [t]) m0).

(** Whether the last additional record of [m] is there and has the TSIG
    type: the two checks of [Verify] on the message. *)
Definition has_tsig `{Package} (m : Msg) : bool :=
  match last (Extra m) with
  | Some t => Rrtype (Header t) =? TypeTSIG
  | None => false
  end.

(** The number of digest computations in a trace. *)
Definition is_digest (e : event) : bool :=
  match e with
  | Digest _ _ => true
  | Printf _ => false
  end.

Definition digests (t : list event) : nat := length (List.filter is_digest t).

(** The result of a computation, and its final state. *)
Definition result `{MsgShape} {A : Type} (c : M A) (st : State) : option A :=
  fst <$> c st.

Definition final `{MsgShape} {A : Type} (c : M A) (st : State) : option State :=
  snd <$> c st.

(** ** Sample values *)

Module Sample.
Import Wirefmt.

Definition hdr : RR_Header := mkHeader "key.example." 250 255 0.

Definition rec : RR_TSIG :=
  mkTSIG hdr HmacMD5 1300000000 300 0 "" 0 0 0 "".

Definition msg : Msg :=
  mkMsg _ (mkMsgHdr _ 1000 256)
        (mkSections [mkQuestion "example.com." 1 1] [] []) [].

Definition rrp : ptr := 1%positive.
Definition msgp : ptr := 2%positive.

Definition st0 : State := mkState _ {[ msgp := msg ]} {[ rrp := rec ]} [].

(** A base64 secret, and the three zero bytes it stands for. *)
Definition secret : string := "AAAA".
Definition key : list byte := [x00; x00; x00].

(** The canonical signing buffer of [rec] and [msg]. *)
Definition buf : list byte :=
  match build rec msg with
  | Built b => b
  | _ => []
  end.

(** The record as a signer who decodes the secret completes it, and the
    message after a forwarder has set its id to 2000. *)
Definition signed : RR_TSIG := completed rec (mac_of key buf) 1000.

Definition st_forwarded : State :=
  mkState _ {[ msgp := transmitted msg (RR_tsig signed) 2000 ]}
          {[ rrp := signed ]} [].

(** The forwarded message with other contents in its attached record. *)
Definition tampered : RR_TSIG :=
  mkTSIG hdr HmacSHA1 42 7 3 "xyz" 9 1 0 "".

Definition st_tampered : State :=
  mkState _ {[ msgp := transmitted msg (RR_tsig tampered) 2000 ]}
          {[ rrp := signed ]} [].

(** The state after [Generate] has run on [st0] with [secret]. *)
Definition st_generated : State :=
  with_tsig rrp
    (completed rec (mac_of (list_byte_of_string "QUFBQQ==") buf) 1000)
    (log [Printf buf; Digest (list_byte_of_string "QUFBQQ==") buf] st0).

(** A record whose algorithm name is none of the declared ones. *)
Definition odd : RR_TSIG :=
  mkTSIG hdr "no-such-algorithm." 1300000000 300 0 "" 0 0 0 "".

Definition st_odd : State := mkState _ {[ msgp := msg ]} {[ rrp := odd ]} [].

Definition buf_odd : list byte :=
  match build odd msg with
  | Built b => b
  | _ => []
  end.

(** A message whose last additional record is not a TSIG record. *)
Definition plain : Msg :=
  set_Extra [RR_other (mkHeader "example.com." 1 1 3600) [x7f; x00; x00; x01]] msg.

Definition st_plain : State :=
  mkState _ {[ msgp := plain ]} {[ rrp := signed ]} [].

End Sample.

(** ** The display form of the record *)

(** What [String] takes from the rest of the package: [rr.Hdr.String()], the
    display form of the header, and [tsigTimeToDate], the display form of
    the signing time. *)
Class Display := {
  HdrString : RR_Header -> string;
  tsigTimeToDate : Z -> string
}.

(** [strconv.Itoa]: the decimal digits, behind a minus sign for a negative
    number. *)
Definition Itoa (z : Z) : string :=
  DecimalString.NilZero.string_of_int (Z.to_int z).

(** [hex.EncodeToString]: two lower-case hexadecimal digits for each byte. *)
Definition EncodeToString (b : list byte) : string := to_hex b.

(** [strings.ToUpper] on ASCII text: the letters a to z become A to Z and
    every other character stays. tsig.go applies it to the result of
    [hex.EncodeToString] only, which is ASCII text. *)
Definition upper (c : ascii) : ascii :=
  let n := nat_of_ascii c in
  if (97 <=? n)%nat && (n <=? 122)%nat then ascii_of_nat (n - 32) else c.

Fixpoint ToUpper (s : string) : string :=
  match s with
  | EmptyString => EmptyString
  | String c r => String (upper c) (ToUpper r)
  end.

(** The text that [String] returns for a record with the contents [r]. *)
Definition display `{Display} (r : RR_TSIG) : string :=
  (HdrString (Hdr r)
   ++ " " ++ Algorithm r
   ++ " " ++ tsigTimeToDate (TimeSigned r)
   ++ " " ++ Itoa (Fudge r)
   ++ " " ++ ToUpper (EncodeToString (list_byte_of_string (MAC r)))
   ++ " " ++ Itoa (OrigId r)
   ++ " " ++ Itoa (Error r)
   ++ " " ++ OtherData r)%string.

(** [rr.String()]. The name [String] is the constructor of Rocq's strings. *)
Definition RR_TSIG_String `{MsgShape} `{Display} (rr : ptr) : M string :=
  r ← load_tsig rr;
  mret (display r).

(** The value of an upper-case hexadecimal digit. *)
Definition unhex (c : ascii) : Z :=
  let n := Z.of_nat (nat_of_ascii c) in
  if n <? 65 then n - 48 else n - 55.

(** Whether a character is the space that separates the fields. *)
Definition is_space (c : ascii) : bool := Ascii.eqb c " ".

Fixpoint no_space (s : string) : bool :=
  match s with
  | EmptyString => true
  | String c r => negb (is_space c) && no_space r
  end.

(** ** Two calls of Verify in a row *)

Definition Verify_twice `{Package} (rr msg : ptr) (secret : string) : M bool :=
  Verify rr msg secret;;
  Verify rr msg secret.

(** ** More sample values *)

Module More.
Import Wirefmt.

(** Modelled from the spec: [tsigTimeToDate] is declared outside tsig.go;
    the spec says that the signing time is shown as a calendar date. The
    seconds since 1970 are shown as year, month, day, hour, minute and
    second in UTC, fourteen digits. *)
Definition pad2 (z : Z) : string :=
  if z <? 10 then ("0" ++ Itoa z)%string else Itoa z.

Definition civil (days : Z) : Z * Z * Z :=
  let z := days + 719468 in
  let era := z / 146097 in
  let doe := z - era * 146097 in
  let yoe := (doe - doe / 1460 + doe / 36524 - doe / 146096) / 365 in
  let doy := doe - (365 * yoe + yoe / 4 - yoe / 100) in
  let mp := (5 * doy + 2) / 153 in
  let d := doy - (153 * mp + 2) / 5 + 1 in
  let m := if mp <? 10 then mp + 3 else mp - 9 in
  (yoe + era * 400 + (if m <=? 2 then 1 else 0), m, d).

Definition timeToDate (t : Z) : string :=
  let '(y, m, d) := civil (t / 86400) in
  let s := t mod 86400 in
  (Itoa y ++ pad2 m ++ pad2 d
   ++ pad2 (s / 3600) ++ pad2 (s mod 3600 / 60) ++ pad2 (s mod 60))%string.

(** Modelled from the spec: [RR_Header.String] is declared outside tsig.go;
    the spec calls its result the owner header. The owner name, the ttl, the
    class and the type, separated by tabs. *)
Definition hdrString (h : RR_Header) : string :=
  let tab := String (ascii_of_nat 9) EmptyString in
  (Name h ++ tab ++ Itoa (Ttl h) ++ tab ++ Itoa (Class h)
   ++ tab ++ Itoa (Rrtype h))%string.

#[global] Instance shown : Display := {|
  HdrString := hdrString;
  tsigTimeToDate := timeToDate
|}.

(** The state after [Verify] has run on [Sample.st_forwarded]. *)
Definition st_verified : State :=
  log [Printf Sample.buf; Digest Sample.key Sample.buf]
    (with_msg Sample.msgp Sample.msg Sample.st_forwarded).

(** A store without the record, and a store without the message. *)
Definition st_no_record : State :=
  mkState _ {[ Sample.msgp := transmitted Sample.msg (RR_tsig Sample.signed) 1000 ]}
          ∅ [].

Definition st_no_message : State :=
  mkState _ ∅ {[ Sample.rrp := Sample.signed ]} [].

(** A record that cannot be put in wire format: the declared length of the
    other data is not its length. *)
Definition broken : RR_TSIG :=
  mkTSIG Sample.hdr HmacMD5 1300000000 300 0 "" 0 0 5 "".

Definition st_broken : State :=
  mkState _ {[ Sample.msgp := Sample.msg ]} {[ Sample.rrp := broken ]} [].

(** The signed record with another MACSize and another record type. *)
Definition resized : RR_TSIG :=
  mkTSIG (mkHeader "key.example." 1 255 0) HmacMD5 1300000000 300 99
         (MAC Sample.signed) 1000 0 0 "".

Definition st_resized : State :=
  mkState _ {[ Sample.msgp := transmitted Sample.msg (RR_tsig Sample.signed) 2000 ]}
          {[ Sample.rrp := resized ]} [].

(** The signed record with another MACSize and another declared length of
    the other data. *)
Definition relabelled : RR_TSIG :=
  mkTSIG Sample.hdr HmacMD5 1300000000 300 99 (MAC Sample.signed) 1000 0 7 "".

Definition st_relabelled : State :=
  mkState _ {[ Sample.msgp := transmitted Sample.msg (RR_tsig Sample.signed) 2000 ]}
          {[ Sample.rrp := relabelled ]} [].

(** The signed record with the last byte of its MAC cut off. *)
Definition short : RR_TSIG :=
  set_MAC (String.substring 0 15 (MAC Sample.signed)) Sample.signed.

Definition st_short : State :=
  mkState _ {[ Sample.msgp := transmitted Sample.msg (RR_tsig Sample.signed) 2000 ]}
          {[ Sample.rrp := short ]} [].

(** A record of another type than TSIG, with the contents of [Sample.rec]. *)
Definition untyped : RR_TSIG :=
  mkTSIG (mkHeader "key.example." 16 255 0) HmacMD5 1300000000 300 0 "" 0 0 0 "".

Definition st_untyped : State :=
  mkState _ {[ Sample.msgp := Sample.msg ]} {[ Sample.rrp := untyped ]} [].

End More.

(** * Properties *)

(** ** Test vectors *)

Example md5_empty :
  to_hex (MD5.sum []) = "d41d8cd98f00b204e9800998ecf8427e"%string.
Proof. vm_compute. reflexivity. Qed.

Example md5_abc :
  to_hex (MD5.sum (list_byte_of_string "abc"))
  = "900150983cd24fb0d6963f7d28e17f72"%string.
Proof. vm_compute. reflexivity. Qed.

Example md5_two_blocks :
  to_hex (MD5.sum (repeat "a"%byte 56))
  = "3b0c8ac703f828b04c6c197006d17218"%string.
Proof. vm_compute. reflexivity. Qed.

Example hmac_md5_rfc2202_2 :
  to_hex (hmacMD5 (list_byte_of_string "Jefe")
            (list_byte_of_string "what do ya want for nothing?"))
  = "750c783e6ab0b503eaa86e310a5db738"%string.
Proof. vm_compute. reflexivity. Qed.

Example hmac_md5_long_key :
  to_hex (hmacMD5 (repeat "k"%byte 80)
            (list_byte_of_string
               "Test Using Larger Than Block-Size Key - Hash Key First"))
  = "01bc5b88dc6a56018686a956c14c8d08"%string.
Proof. vm_compute. reflexivity. Qed.

Example base64_encode_foobar :
  Base64.encode (list_byte_of_string "foobar") = "Zm9vYmFy"%string.
Proof. vm_compute. reflexivity. Qed.

Example base64_encode_padding :
  Base64.encode (list_byte_of_string "foob") = "Zm9vYg=="%string.
Proof. vm_compute. reflexivity. Qed.

Example base64_decode_padding :
  Base64.decode (list_byte_of_string "Zm9vYmE=")
  = Some (list_byte_of_string "fooba").
Proof. vm_compute. reflexivity. Qed.

Example base64_decode_malformed :
  Base64.decode (list_byte_of_string "Zm9") = None /\
  Base64.decode (list_byte_of_string "Zm9v!mFy") = None.
Proof. vm_compute. split; reflexivity. Qed.

Example sample_message_wire :
  to_hex <$> Pack Sample.msg
  = Some "03e801000001000000000000076578616d706c6503636f6d0000010001"%string.
Proof. vm_compute. reflexivity. Qed.

Example sample_variables_wire :
  to_hex <$> serialize (tsigWire Sample.rec)
  = Some ("036b6579076578616d706c6500" ++ "00ff" ++ "00000000"
          ++ "08484d41432d4d4435075349472d414c470352454703494e5400"
          ++ "00004d7c6d00" ++ "012c" ++ "0000" ++ "0000")%string.
Proof. vm_compute. reflexivity. Qed.

(** ** Bytes, strings and the digest *)

Lemma bytes_of_string_of_bytes (b : list byte) :
  list_byte_of_string (string_of_list_byte b) = b.
Proof. apply list_byte_of_string_of_list_byte. Qed.

Lemma string_length_of_bytes (b : list byte) :
  String.length (string_of_list_byte b) = length b.
Proof.
  induction b as [|x b IH]; simpl; [reflexivity|].
  rewrite <- IH. reflexivity.
Qed.

Lemma le_length (n : nat) (z : Z) : length (le n z) = n.
Proof.
  revert z. induction n as [|n IH]; intros z; simpl; [reflexivity|].
  now rewrite IH.
Qed.

Lemma md5_length (msg : list byte) : length (MD5.sum msg) = 16%nat.
Proof.
  unfold MD5.sum, MD5.output.
  rewrite !length_app, !le_length. reflexivity.
Qed.

Lemma hmacMD5_length (key data : list byte) :
  length (hmacMD5 key data) = 16%nat.
Proof. unfold hmacMD5. apply md5_length. Qed.

Lemma mac_of_length (key buf : list byte) :
  String.length (mac_of key buf) = 16%nat.
Proof. unfold mac_of. now rewrite string_length_of_bytes, hmacMD5_length. Qed.

(** ** The monad and the store *)

Lemma bind_run `{MsgShape} {A B : Type} (c : M A) (k : A -> M B) (st : State) :
  (c ≫= k) st = match c st with
                | Some (a, st') => k a st'
                | None => None
                end.
Proof. reflexivity. Qed.

Lemma ret_run `{MsgShape} {A : Type} (a : A) (st : State) :
  (mret a : M A) st = Some (a, st).
Proof. reflexivity. Qed.

Lemma load_tsig_run `{MsgShape} (p : ptr) (st : State) r :
  tsigs st !! p = Some r -> load_tsig p st = Some (r, st).
Proof. intros Hp. unfold load_tsig. now rewrite Hp. Qed.

Lemma load_msg_run `{MsgShape} (p : ptr) (st : State) m :
  msgs st !! p = Some m -> load_msg p st = Some (m, st).
Proof. intros Hp. unfold load_msg. now rewrite Hp. Qed.

Lemma store_tsig_run `{MsgShape} (p : ptr) r (st : State) :
  store_tsig p r st = Some (tt, with_tsig p r st).
Proof. reflexivity. Qed.

Lemma store_msg_run `{MsgShape} (p : ptr) m (st : State) :
  store_msg p m st = Some (tt, with_msg p m st).
Proof. reflexivity. Qed.

Lemma emit_run `{MsgShape} (e : event) (st : State) :
  emit e st = Some (tt, log [e] st).
Proof. reflexivity. Qed.

Lemma hmac_sum_run `{MsgShape} (key : list byte) (data : string) (st : State) :
  hmac_sum key data st
  = Some (hmacMD5 key (list_byte_of_string data),
          log [Digest key (list_byte_of_string data)] st).
Proof. reflexivity. Qed.

Lemma tsigs_with_tsig `{MsgShape} p r (st : State) :
  tsigs (with_tsig p r st) = <[p := r]> (tsigs st).
Proof. reflexivity. Qed.

Lemma msgs_with_tsig `{MsgShape} p r (st : State) :
  msgs (with_tsig p r st) = msgs st.
Proof. reflexivity. Qed.

Lemma trace_with_tsig `{MsgShape} p r (st : State) :
  trace (with_tsig p r st) = trace st.
Proof. reflexivity. Qed.

Lemma tsigs_with_msg `{MsgShape} p m (st : State) :
  tsigs (with_msg p m st) = tsigs st.
Proof. reflexivity. Qed.

Lemma msgs_with_msg `{MsgShape} p m (st : State) :
  msgs (with_msg p m st) = <[p := m]> (msgs st).
Proof. reflexivity. Qed.

Lemma trace_with_msg `{MsgShape} p m (st : State) :
  trace (with_msg p m st) = trace st.
Proof. reflexivity. Qed.

Lemma tsigs_log `{MsgShape} es (st : State) : tsigs (log es st) = tsigs st.
Proof. reflexivity. Qed.

Lemma msgs_log `{MsgShape} es (st : State) : msgs (log es st) = msgs st.
Proof. reflexivity. Qed.

Lemma trace_log `{MsgShape} es (st : State) : trace (log es st) = trace st ++ es.
Proof. reflexivity. Qed.

Lemma with_tsig_twice `{MsgShape} p a b (st : State) :
  with_tsig p a (with_tsig p b st) = with_tsig p a st.
Proof. unfold with_tsig. simpl. now rewrite insert_insert_eq. Qed.

Lemma with_msg_twice `{MsgShape} p a b (st : State) :
  with_msg p a (with_msg p b st) = with_msg p a st.
Proof. unfold with_msg. simpl. now rewrite insert_insert_eq. Qed.

Lemma log_log `{MsgShape} a b (st : State) :
  log b (log a st) = log (a ++ b) st.
Proof. unfold log. simpl. now rewrite app_assoc. Qed.

Create Rewrite HintDb store.
#[local] Hint Rewrite @tsigs_with_tsig @msgs_with_tsig @trace_with_tsig
  @tsigs_with_msg @msgs_with_msg @trace_with_msg
  @tsigs_log @msgs_log @trace_log : store.

(** One step of a computation whose loads are known. *)
Ltac mstep :=
  first
    [ rewrite bind_run
    | rewrite ret_run
    | rewrite store_tsig_run
    | rewrite store_msg_run
    | rewrite emit_run
    | rewrite hmac_sum_run
    | erewrite load_tsig_run by
        (autorewrite with store; first [eassumption | apply lookup_insert_eq])
    | erewrite load_msg_run by
        (autorewrite with store; first [eassumption | apply lookup_insert_eq])
    | progress cbv beta iota ].

(** ** The run equations of the three functions *)

Lemma tsigToBuf_run `{Package} (rr msg : ptr) (st : State) r m :
  tsigs st !! rr = Some r ->
  msgs st !! msg = Some m ->
  tsigToBuf rr msg st =
    match build r m with
    | Panics => None
    | Fails => Some (([], false), st)
    | Built buf => Some ((buf, true), log [Printf buf] st)
    end.
Proof.
  intros Hr Hm. unfold tsigToBuf, build, slice_to. fold scratch.
  do 2 mstep.
  destruct (packStruct (tsigWire r) scratch 0) as [[b n] ok1].
  destruct ok1; cbn [negb]; [|reflexivity].
  destruct ((0 <=? n) && (n <=? Z.of_nat (length b))); [|reflexivity].
  repeat mstep.
  destruct (Pack m); repeat mstep; reflexivity.
Qed.

Lemma tsigToBuf_no_record `{Package} (rr msg : ptr) (st : State) :
  tsigs st !! rr = None -> tsigToBuf rr msg st = None.
Proof.
  intros Hr. unfold tsigToBuf. rewrite bind_run. unfold load_tsig.
  now rewrite Hr.
Qed.

Lemma Generate_run `{Package} (rr msg : ptr) (secret : string) (st : State) r m :
  tsigs st !! rr = Some r ->
  msgs st !! msg = Some m ->
  let key := list_byte_of_string (unpackBase64 (list_byte_of_string secret)) in
  Generate rr msg secret st =
    match build r m with
    | Panics => None
    | Fails => Some (false, st)
    | Built buf =>
        Some (true,
              with_tsig rr (completed r (mac_of key buf) (Id (MsgHdr m)))
                (log [Printf buf; Digest key buf] st))
    end.
Proof.
  intros Hr Hm key. unfold Generate.
  rewrite bind_run, (tsigToBuf_run rr msg st r m Hr Hm).
  destruct (build r m) as [| |buf]; [reflexivity|reflexivity|].
  cbn [negb]. repeat mstep.
  rewrite !with_tsig_twice, log_log, bytes_of_string_of_bytes.
  reflexivity.
Qed.

Lemma Verify_bad_secret `{Package} (rr msg : ptr) (secret : string) (st : State) :
  packBase64 (list_byte_of_string secret) = None ->
  Verify rr msg secret st = Some (false, st).
Proof. intros Hk. unfold Verify. rewrite Hk. reflexivity. Qed.

Lemma Verify_run `{Package} (rr msg : ptr) (secret : string) (st : State) key m :
  packBase64 (list_byte_of_string secret) = Some key ->
  msgs st !! msg = Some m ->
  Verify rr msg secret st =
    if (length (Extra m) <? 1)%nat then Some (false, st) else
    match Extra m !! (length (Extra m) - 1)%nat with
    | None => None
    | Some tsigrr =>
        if negb (Rrtype (Header tsigrr) =? TypeTSIG) then Some (false, st) else
        match tsigs st !! rr with
        | None => None
        | Some r =>
            let st1 := with_msg msg (stripped r m) st in
            match build r (stripped r m) with
            | Panics => None
            | Fails => Some (false, st1)
            | Built buf =>
                Some (String.eqb (mac_of key buf) (MAC r),
                      log [Printf buf; Digest key buf] st1)
            end
        end
    end.
Proof.
  intros Hk Hm. unfold Verify. rewrite Hk. do 2 mstep.
  destruct (length (Extra m) <? 1)%nat; [reflexivity|].
  destruct (Extra m !! (length (Extra m) - 1)%nat) as [t|]; [|reflexivity].
  destruct (negb (Rrtype (Header t) =? TypeTSIG)); [reflexivity|].
  rewrite bind_run. unfold load_tsig at 1.
  destruct (tsigs st !! rr) as [r|] eqn:Hr; [|reflexivity].
  do 8 mstep. rewrite with_msg_twice.
  change (set_Extra _ (set_Id (OrigId r) m)) with (stripped r m).
  rewrite bind_run, (tsigToBuf_run rr msg _ r (stripped r m)).
  2: exact Hr. 2: apply lookup_insert_eq.
  destruct (build r (stripped r m)) as [| |buf]; [reflexivity|reflexivity|].
  cbn [negb]. repeat mstep.
  rewrite log_log, bytes_of_string_of_bytes. reflexivity.
Qed.

(** ** tsigToBuf *)

Lemma tsigToBuf_built `{Package} (rr msg : ptr) (st st' : State) buf :
  tsigToBuf rr msg st = Some ((buf, true), st') ->
  exists r m,
    tsigs st !! rr = Some r /\ msgs st !! msg = Some m /\
    build r m = Built buf /\ st' = log [Printf buf] st.
Proof.
  intros Hrun.
  destruct (tsigs st !! rr) as [r|] eqn:Hr.
  2: { rewrite tsigToBuf_no_record in Hrun by exact Hr. discriminate. }
  destruct (msgs st !! msg) as [m|] eqn:Hm.
  - rewrite (tsigToBuf_run rr msg st r m Hr Hm) in Hrun.
    exists r, m. destruct (build r m); try discriminate.
    inversion Hrun; subst. auto.
  - exfalso. revert Hrun. unfold tsigToBuf, slice_to. do 2 mstep.
    destruct (packStruct (tsigWire r) (make 4096) 0) as [[b n] ok1].
    destruct ok1; cbn [negb]; [|discriminate].
    destruct ((0 <=? n) && (n <=? Z.of_nat (length b))); [|discriminate].
    do 3 mstep. unfold load_msg. rewrite Hm. discriminate.
Qed.

Lemma build_serialize `{Package} (r : RR_TSIG) (m : Msg) buf :
  build r m = Built buf <->
  exists msgbuf proj,
    Pack m = Some msgbuf /\ serialize (tsigWire r) = Some proj /\
    buf = msgbuf ++ proj.
Proof.
  unfold build, serialize.
  destruct (packStruct (tsigWire r) scratch 0) as [[b n] ok1].
  destruct ok1; cbn [negb andb].
  2: { split; [discriminate|]. intros (? & ? & _ & ? & _). discriminate. }
  destruct ((0 <=? n) && (n <=? Z.of_nat (length b))).
  2: { split; [discriminate|]. intros (? & ? & _ & ? & _). discriminate. }
  destruct (Pack m) as [mb|].
  - split.
    + intros Hb. inversion Hb. eauto.
    + intros (? & ? & Hp & Hs & ->). inversion Hp; inversion Hs. reflexivity.
  - split; [discriminate|]. intros (? & ? & ? & _). discriminate.
Qed.

Lemma tsigWire_completed (r : RR_TSIG) (mac : string) (id : Z) :
  tsigWire (completed r mac id) = tsigWire r.
Proof. reflexivity. Qed.

Lemma build_completed `{Package} (r : RR_TSIG) (mac : string) (id : Z) (m : Msg) :
  build (completed r mac id) m = build r m.
Proof. reflexivity. Qed.

(** C3. Whenever [tsigToBuf] succeeds, the buffer it returns is the wire
    form of the message followed by the serialized projection of the record:
    the message bytes are the front of the buffer and the projection bytes
    are the rest. The projection holds the owner name, class, ttl, algorithm
    name, time signed, fudge, error, other length and other data of the
    record, and the buffer is the same whatever MACSize, MAC and OrigId the
    record carries. *)
Theorem tsigToBuf_canonical `{Package} (rr msg : ptr) (st st' : State) buf :
  tsigToBuf rr msg st = Some ((buf, true), st') ->
  exists r m msgbuf proj,
    tsigs st !! rr = Some r /\ msgs st !! msg = Some m /\
    Pack m = Some msgbuf /\
    serialize (tsigWire r) = Some proj /\
    buf = msgbuf ++ proj /\
    take (length msgbuf) buf = msgbuf /\
    drop (length msgbuf) buf = proj /\
    tsigWire r
    = Wire.mk (Name (Hdr r)) (Class (Hdr r)) (Ttl (Hdr r)) (Algorithm r)
              (TimeSigned r) (Fudge r) (Error r) (OtherLen r) (OtherData r) /\
    forall size mac id,
      build (set_OrigId id (set_MACSize size (set_MAC mac r))) m = Built buf.
Proof.
  intros Hrun.
  destruct (tsigToBuf_built _ _ _ _ _ Hrun) as (r & m & Hr & Hm & Hb & _).
  destruct (proj1 (build_serialize r m buf) Hb) as (mb & pj & Hp & Hs & ->).
  exists r, m, mb, pj. repeat split; try assumption.
  - now rewrite take_app_length.
  - now rewrite drop_app_length.
  - intros size mac id. exact Hb.
Qed.

Lemma tsigToBuf_canonical_witness :
  exists r m msgbuf proj,
    tsigs Sample.st0 !! Sample.rrp = Some r /\
    msgs Sample.st0 !! Sample.msgp = Some m /\
    Pack m = Some msgbuf /\
    serialize (tsigWire r) = Some proj /\
    Sample.buf = msgbuf ++ proj /\
    take (length msgbuf) Sample.buf = msgbuf /\
    drop (length msgbuf) Sample.buf = proj /\
    tsigWire r
    = Wire.mk (Name (Hdr r)) (Class (Hdr r)) (Ttl (Hdr r)) (Algorithm r)
              (TimeSigned r) (Fudge r) (Error r) (OtherLen r) (OtherData r) /\
    forall size mac id,
      build (set_OrigId id (set_MACSize size (set_MAC mac r))) m
      = Built Sample.buf.
Proof.
  apply (tsigToBuf_canonical Sample.rrp Sample.msgp Sample.st0
           (log [Printf Sample.buf] Sample.st0) Sample.buf).
  vm_compute. reflexivity.
Defined.

(** ** Generate *)

Lemma Generate_true `{Package} (rr msg : ptr) (secret : string) (st st' : State) :
  Generate rr msg secret st = Some (true, st') ->
  exists r m buf,
    tsigs st !! rr = Some r /\ msgs st !! msg = Some m /\
    build r m = Built buf /\
    let key := list_byte_of_string (unpackBase64 (list_byte_of_string secret)) in
    st' = with_tsig rr (completed r (mac_of key buf) (Id (MsgHdr m)))
            (log [Printf buf; Digest key buf] st).
Proof.
  intros Hrun.
  destruct (tsigs st !! rr) as [r|] eqn:Hr.
  2: { unfold Generate in Hrun. rewrite bind_run in Hrun.
       rewrite tsigToBuf_no_record in Hrun by exact Hr. discriminate. }
  destruct (msgs st !! msg) as [m|] eqn:Hm.
  - rewrite (Generate_run rr msg secret st r m Hr Hm) in Hrun.
    exists r, m. destruct (build r m) as [| |buf]; try discriminate.
    exists buf. inversion Hrun; subst. auto.
  - exfalso. unfold Generate in Hrun. rewrite bind_run in Hrun.
    destruct (tsigToBuf rr msg st) as [[[b ok] st1]|] eqn:Hb; [|discriminate].
    destruct ok.
    + destruct (tsigToBuf_built _ _ _ _ _ Hb) as (? & ? & _ & Hm' & _).
      congruence.
    + cbv beta iota in Hrun. cbn [negb] in Hrun. rewrite ret_run in Hrun.
      discriminate.
Qed.

(** [Generate] succeeds exactly when the buffer is built, for every secret. *)
Lemma Generate_result `{Package} (rr msg : ptr) (secret : string) (st : State) r m :
  tsigs st !! rr = Some r ->
  msgs st !! msg = Some m ->
  result (Generate rr msg secret) st =
    match build r m with
    | Panics => None
    | Fails => Some false
    | Built _ => Some true
    end.
Proof.
  intros Hr Hm. unfold result.
  rewrite (Generate_run rr msg secret st r m Hr Hm).
  destruct (build r m); reflexivity.
Qed.

(** C4. Whenever [Generate] succeeds, the record holds the computed digest
    in MAC, the byte length of MAC (16) in MACSize and the header id of the
    message in OrigId; its other fields are as before; every message of the
    store, the signed one included, is unchanged, and so is every other
    record. *)
Theorem Generate_postconditions `{Package}
    (rr msg : ptr) (secret : string) (st st' : State) :
  Generate rr msg secret st = Some (true, st') ->
  exists r m buf r',
    tsigs st !! rr = Some r /\ msgs st !! msg = Some m /\
    build r m = Built buf /\
    tsigs st' !! rr = Some r' /\
    MAC r' = string_of_list_byte
               (hmacMD5 (list_byte_of_string
                           (unpackBase64 (list_byte_of_string secret))) buf) /\
    MACSize r' = Z.of_nat (String.length (MAC r')) /\
    OrigId r' = Id (MsgHdr m) /\
    tsigWire r' = tsigWire r /\ Hdr r' = Hdr r /\
    msgs st' = msgs st /\
    msgs st' !! msg = Some m /\
    forall p, p <> rr -> tsigs st' !! p = tsigs st !! p.
Proof.
  intros Hrun.
  destruct (Generate_true _ _ _ _ _ Hrun) as (r & m & buf & Hr & Hm & Hb & ->).
  exists r, m, buf.
  eexists. split; [exact Hr|]. split; [exact Hm|]. split; [exact Hb|].
  split; [rewrite tsigs_with_tsig; apply lookup_insert_eq|].
  split; [reflexivity|].
  split.
  { cbn [completed set_OrigId set_MACSize set_MAC MACSize MAC].
    rewrite mac_of_length. reflexivity. }
  split; [reflexivity|]. split; [reflexivity|]. split; [reflexivity|].
  split; [reflexivity|]. split; [exact Hm|].
  intros p Hp. rewrite tsigs_with_tsig, tsigs_log.
  now rewrite lookup_insert_ne.
Qed.

Lemma Generate_postconditions_witness :
  exists r m buf r',
    tsigs Sample.st0 !! Sample.rrp = Some r /\
    msgs Sample.st0 !! Sample.msgp = Some m /\
    build r m = Built buf /\
    tsigs Sample.st_generated !! Sample.rrp = Some r' /\
    MAC r' = string_of_list_byte
               (hmacMD5 (list_byte_of_string
                           (unpackBase64 (list_byte_of_string Sample.secret)))
                        buf) /\
    MACSize r' = Z.of_nat (String.length (MAC r')) /\
    OrigId r' = Id (MsgHdr m) /\
    tsigWire r' = tsigWire r /\ Hdr r' = Hdr r /\
    msgs Sample.st_generated = msgs Sample.st0 /\
    msgs Sample.st_generated !! Sample.msgp = Some m /\
    forall p, p <> Sample.rrp ->
      tsigs Sample.st_generated !! p = tsigs Sample.st0 !! p.
Proof.
  apply (Generate_postconditions Sample.rrp Sample.msgp Sample.secret
           Sample.st0).
  vm_compute. reflexivity.
Defined.

(** ** Verify *)

Lemma take_all_but_last {A : Type} (l : list A) (t : A) :
  take (length (l ++ [t]) - 1) (l ++ [t]) = l.
Proof.
  rewrite length_app. cbn [length].
  replace (length l + 1 - 1)%nat with (length l) by lia.
  apply take_app_length.
Qed.

Lemma lookup_last {A : Type} (l : list A) :
  l !! (length l - 1)%nat = last l.
Proof. rewrite last_lookup. now rewrite Nat.sub_1_r. Qed.

Lemma stripped_set_Id `{MsgShape} (r : RR_TSIG) (id : Z) (m : Msg) :
  stripped r (set_Id id m) = stripped r m.
Proof. reflexivity. Qed.

Lemma stripped_transmitted `{MsgShape} (r : RR_TSIG) (m0 : Msg) (t : RR) (id : Z) :
  Id (MsgHdr m0) = OrigId r ->
  stripped r (transmitted m0 t id) = m0.
Proof.
  intros Hid. destruct m0 as [[i h] s e]. cbn in Hid. subst i.
  unfold stripped, transmitted, set_Extra, set_Id. cbn.
  now rewrite take_all_but_last.
Qed.

(** The checks of [Verify] in terms of [has_tsig]. *)
Lemma Verify_cases `{Package} (rr msg : ptr) (secret : string) (st : State) key m :
  packBase64 (list_byte_of_string secret) = Some key ->
  msgs st !! msg = Some m ->
  Verify rr msg secret st =
    if has_tsig m then
      match tsigs st !! rr with
      | None => None
      | Some r =>
          let st1 := with_msg msg (stripped r m) st in
          match build r (stripped r m) with
          | Panics => None
          | Fails => Some (false, st1)
          | Built buf =>
              Some (String.eqb (mac_of key buf) (MAC r),
                    log [Printf buf; Digest key buf] st1)
          end
      end
    else Some (false, st).
Proof.
  intros Hk Hm. rewrite (Verify_run rr msg secret st key m Hk Hm).
  unfold has_tsig. rewrite lookup_last.
  destruct (Extra m) as [|x l] eqn:He; [reflexivity|].
  replace (length (x :: l) <? 1)%nat with false
    by (symmetry; apply Nat.ltb_ge; cbn; lia).
  destruct (last (x :: l)) as [t|] eqn:Hl.
  - destruct (Rrtype (Header t) =? TypeTSIG); reflexivity.
  - apply last_None in Hl. discriminate.
Qed.

Lemma has_tsig_snoc `{Package} (m : Msg) l t :
  Extra m = l ++ [t] ->
  has_tsig m = (Rrtype (Header t) =? TypeTSIG).
Proof. intros He. unfold has_tsig. now rewrite He, last_snoc. Qed.

Lemma has_tsig_nil `{Package} (m : Msg) : Extra m = [] -> has_tsig m = false.
Proof. intros He. unfold has_tsig. now rewrite He. Qed.

Lemma has_tsig_true `{Package} (m : Msg) :
  has_tsig m = true ->
  exists l t, Extra m = l ++ [t] /\ Rrtype (Header t) = TypeTSIG.
Proof.
  unfold has_tsig. intros Ht.
  destruct (last (Extra m)) as [t|] eqn:Hl; [|discriminate].
  apply last_Some in Hl as [l Hl]. exists l, t. split; [exact Hl|].
  now apply Z.eqb_eq.
Qed.

(** A message without a trailing TSIG record is rejected with the state,
    trace included, as it was. *)
Lemma Verify_unsigned `{Package} (rr msg : ptr) (secret : string) (st : State) m :
  msgs st !! msg = Some m ->
  has_tsig m = false ->
  Verify rr msg secret st = Some (false, st).
Proof.
  intros Hm Hu.
  destruct (packBase64 (list_byte_of_string secret)) as [key|] eqn:Hk.
  - rewrite (Verify_cases rr msg secret st key m Hk Hm), Hu. reflexivity.
  - now apply Verify_bad_secret.
Qed.

(** Once the checks have passed, the caller's message is written. *)
Lemma Verify_writes_through `{Package}
    (rr msg : ptr) (secret : string) (st st' : State) key m b :
  packBase64 (list_byte_of_string secret) = Some key ->
  msgs st !! msg = Some m ->
  has_tsig m = true ->
  Verify rr msg secret st = Some (b, st') ->
  exists r, tsigs st !! rr = Some r /\ msgs st' !! msg = Some (stripped r m).
Proof.
  intros Hk Hm Ht. rewrite (Verify_cases rr msg secret st key m Hk Hm), Ht.
  destruct (tsigs st !! rr) as [r|]; [|discriminate].
  intros Hrun. exists r. split; [reflexivity|].
  cbv zeta in Hrun.
  destruct (build r (stripped r m)) as [| |buf]; [discriminate| |].
  - injection Hrun as _ <-.
    rewrite msgs_with_msg. apply lookup_insert_eq.
  - set (v := String.eqb _ _) in Hrun. clearbody v.
    injection Hrun as _ <-.
    rewrite msgs_log, msgs_with_msg. apply lookup_insert_eq.
Qed.

(** On a message that passes the checks and whose buffer is built, the call
    computes one digest. *)
Lemma Verify_digests_once `{Package}
    (rr msg : ptr) (secret : string) (st st' : State) key m r buf b :
  packBase64 (list_byte_of_string secret) = Some key ->
  msgs st !! msg = Some m ->
  has_tsig m = true ->
  tsigs st !! rr = Some r ->
  build r (stripped r m) = Built buf ->
  Verify rr msg secret st = Some (b, st') ->
  trace st' = trace st ++ [Printf buf; Digest key buf] /\
  digests (trace st') = S (digests (trace st)).
Proof.
  intros Hk Hm Ht Hr Hb.
  rewrite (Verify_cases rr msg secret st key m Hk Hm), Ht, Hr. cbv zeta.
  rewrite Hb. set (v := String.eqb _ _). clearbody v.
  intros Hrun. injection Hrun as _ <-.
  rewrite trace_log, trace_with_msg. split; [reflexivity|].
  unfold digests. rewrite List.filter_app, length_app. cbn. lia.
Qed.

(** C6. A message whose additional section is empty, or whose last
    additional record is not of the TSIG type, is rejected, whatever the
    record and the secret are; [Verify] returns the state as it was, so the
    trace holds no further digest computation. *)
Theorem Verify_rejects_unsigned `{Package}
    (rr msg : ptr) (secret : string) (st : State) m :
  msgs st !! msg = Some m ->
  (Extra m = [] \/
   exists l t, Extra m = l ++ [t] /\ Rrtype (Header t) <> TypeTSIG) ->
  Verify rr msg secret st = Some (false, st) /\
  forall b st',
    Verify rr msg secret st = Some (b, st') ->
    digests (trace st') = digests (trace st).
Proof.
  intros Hm Hu.
  assert (Hrun : Verify rr msg secret st = Some (false, st)).
  { apply (Verify_unsigned rr msg secret st m Hm).
    destruct Hu as [He|(l & t & He & Ht)].
    - now apply has_tsig_nil.
    - rewrite (has_tsig_snoc m l t He). now apply Z.eqb_neq. }
  split; [exact Hrun|].
  intros b st' Hrun'. rewrite Hrun in Hrun'. now inversion Hrun'.
Qed.

Lemma Verify_rejects_unsigned_witness :
  Verify Sample.rrp Sample.msgp Sample.secret Sample.st_plain
  = Some (false, Sample.st_plain) /\
  forall b st',
    Verify Sample.rrp Sample.msgp Sample.secret Sample.st_plain = Some (b, st') ->
    digests (trace st') = digests (trace Sample.st_plain).
Proof.
  apply (Verify_rejects_unsigned Sample.rrp Sample.msgp Sample.secret
           Sample.st_plain Sample.plain).
  - reflexivity.
  - right.
    exists [], (RR_other (mkHeader "example.com." 1 1 3600) [x7f; x00; x00; x01]).
    split; [reflexivity|]. vm_compute. discriminate.
Defined.

(** C10. When the secret does not decode, when the additional section is
    empty, or when its last record is not of the TSIG type, [Verify] rejects
    and returns the state as it was, the caller's message included. In the
    other direction, a call that returns with the caller's message changed
    has passed all three checks: the secret decoded, and the message had a
    last additional record of the TSIG type. *)
Theorem Verify_writes_only_after_checks `{Package}
    (rr msg : ptr) (secret : string) (st : State) :
  (packBase64 (list_byte_of_string secret) = None \/
   (exists m, msgs st !! msg = Some m /\
      (Extra m = [] \/
       exists l t, Extra m = l ++ [t] /\ Rrtype (Header t) <> TypeTSIG)) ->
   Verify rr msg secret st = Some (false, st)) /\
  (forall b st',
     Verify rr msg secret st = Some (b, st') ->
     msgs st' !! msg <> msgs st !! msg ->
     exists key m l t,
       packBase64 (list_byte_of_string secret) = Some key /\
       msgs st !! msg = Some m /\
       Extra m = l ++ [t] /\ Rrtype (Header t) = TypeTSIG).
Proof.
  split.
  - intros [Hk|(m & Hm & Hu)].
    + now apply Verify_bad_secret.
    + apply (Verify_unsigned rr msg secret st m Hm).
      destruct Hu as [He|(l & t & He & Ht)].
      * now apply has_tsig_nil.
      * rewrite (has_tsig_snoc m l t He). now apply Z.eqb_neq.
  - intros b st' Hrun Hne.
    destruct (packBase64 (list_byte_of_string secret)) as [key|] eqn:Hk.
    2: { rewrite Verify_bad_secret in Hrun by exact Hk.
         injection Hrun as _ <-. congruence. }
    destruct (msgs st !! msg) as [m|] eqn:Hm.
    2: { exfalso. revert Hrun. unfold Verify. rewrite Hk, bind_run.
         unfold load_msg. rewrite Hm. discriminate. }
    destruct (has_tsig m) eqn:Ht.
    + destruct (has_tsig_true m Ht) as (l & t & He & Hty).
      exists key, m, l, t. auto.
    + rewrite (Verify_unsigned rr msg secret st m Hm Ht) in Hrun.
      injection Hrun as _ <-. congruence.
Qed.

Lemma Verify_writes_only_after_checks_witness :
  Verify Sample.rrp Sample.msgp "!!" Sample.st_forwarded
  = Some (false, Sample.st_forwarded).
Proof.
  apply (proj1 (Verify_writes_only_after_checks Sample.rrp Sample.msgp "!!"
                  Sample.st_forwarded)).
  left. vm_compute. reflexivity.
Defined.

(** The verdict as a function of what [Verify] reads. *)
Lemma Verify_result `{Package} (rr msg : ptr) (secret : string) (st : State) key m l t r :
  packBase64 (list_byte_of_string secret) = Some key ->
  msgs st !! msg = Some m ->
  Extra m = l ++ [t] ->
  Rrtype (Header t) = TypeTSIG ->
  tsigs st !! rr = Some r ->
  result (Verify rr msg secret) st =
    match build r (stripped r m) with
    | Panics => None
    | Fails => Some false
    | Built buf => Some (String.eqb (mac_of key buf) (MAC r))
    end.
Proof.
  intros Hk Hm He Ht Hr. unfold result.
  rewrite (Verify_cases rr msg secret st key m Hk Hm).
  rewrite (has_tsig_snoc m l t He), Ht, Z.eqb_refl, Hr. cbv zeta.
  destruct (build r (stripped r m)); reflexivity.
Qed.

Lemma stripped_ext `{MsgShape} (r : RR_TSIG) (m1 m2 : Msg) l t1 t2 :
  hdr_rest (MsgHdr m1) = hdr_rest (MsgHdr m2) ->
  sections m1 = sections m2 ->
  Extra m1 = l ++ [t1] ->
  Extra m2 = l ++ [t2] ->
  stripped r m1 = stripped r m2.
Proof.
  intros Hh Hs H1 H2. unfold stripped, set_Extra, set_Id. cbn.
  now rewrite Hh, Hs, H1, H2, !take_all_but_last.
Qed.

(** C9. The verdict of [Verify] is the same for two messages that differ
    only in their last additional record, as long as the two last records
    have the same record type: of the record found on the message only the
    type is read, and the digest is compared with the MAC of the argument
    record. *)
Theorem Verify_reads_only_the_type `{Package}
    (rr msg : ptr) (secret : string) (st1 st2 : State) m1 m2 l t1 t2 :
  msgs st1 !! msg = Some m1 ->
  msgs st2 !! msg = Some m2 ->
  tsigs st1 !! rr = tsigs st2 !! rr ->
  MsgHdr m1 = MsgHdr m2 ->
  sections m1 = sections m2 ->
  Extra m1 = l ++ [t1] ->
  Extra m2 = l ++ [t2] ->
  Rrtype (Header t1) = Rrtype (Header t2) ->
  result (Verify rr msg secret) st1 = result (Verify rr msg secret) st2.
Proof.
  intros Hm1 Hm2 Hrr Hh Hs He1 He2 Hty.
  destruct (packBase64 (list_byte_of_string secret)) as [key|] eqn:Hk.
  2: { unfold result. now rewrite !Verify_bad_secret by exact Hk. }
  unfold result.
  rewrite (Verify_cases rr msg secret st1 key m1 Hk Hm1).
  rewrite (Verify_cases rr msg secret st2 key m2 Hk Hm2).
  rewrite (has_tsig_snoc m1 l t1 He1), (has_tsig_snoc m2 l t2 He2), Hty, <- Hrr.
  destruct (Rrtype (Header t2) =? TypeTSIG); [|reflexivity].
  destruct (tsigs st1 !! rr) as [r|]; [|reflexivity]. cbv zeta.
  rewrite (stripped_ext r m1 m2 l t1 t2 (f_equal hdr_rest Hh) Hs He1 He2).
  destruct (build r (stripped r m2)); reflexivity.
Qed.

Lemma Verify_reads_only_the_type_witness :
  result (Verify Sample.rrp Sample.msgp Sample.secret) Sample.st_forwarded
  = result (Verify Sample.rrp Sample.msgp Sample.secret) Sample.st_tampered.
Proof.
  apply (Verify_reads_only_the_type Sample.rrp Sample.msgp Sample.secret
           Sample.st_forwarded Sample.st_tampered
           (transmitted Sample.msg (RR_tsig Sample.signed) 2000)
           (transmitted Sample.msg (RR_tsig Sample.tampered) 2000)
           [] (RR_tsig Sample.signed) (RR_tsig Sample.tampered));
    reflexivity.
Defined.

Lemma rewrite_id_run `{MsgShape} (msg : ptr) (id : Z) (st : State) m :
  msgs st !! msg = Some m ->
  rewrite_id msg id st = Some (tt, with_msg msg (set_Id id m) st).
Proof. intros Hm. unfold rewrite_id. now repeat mstep. Qed.

(** The verdict does not depend on the header id that the message carries
    when [Verify] is called. *)
Lemma Verify_ignores_header_id `{Package}
    (rr msg : ptr) (secret : string) (st : State) m (id : Z) :
  msgs st !! msg = Some m ->
  result (rewrite_id msg id;; Verify rr msg secret) st
  = result (Verify rr msg secret) st.
Proof.
  intros Hm. unfold result.
  rewrite bind_run, (rewrite_id_run msg id st m Hm).
  destruct (packBase64 (list_byte_of_string secret)) as [key|] eqn:Hk.
  2: { now rewrite !Verify_bad_secret by exact Hk. }
  assert (Hm' : msgs (with_msg msg (set_Id id m) st) !! msg = Some (set_Id id m))
    by (rewrite msgs_with_msg; apply lookup_insert_eq).
  rewrite (Verify_cases rr msg secret _ key (set_Id id m) Hk Hm').
  rewrite (Verify_cases rr msg secret st key m Hk Hm).
  change (has_tsig (set_Id id m)) with (has_tsig m).
  destruct (has_tsig m); [|reflexivity].
  rewrite tsigs_with_msg.
  destruct (tsigs st !! rr) as [r|]; [|reflexivity]. cbv zeta.
  rewrite stripped_set_Id.
  destruct (build r (stripped r m)); reflexivity.
Qed.

(** On [Verify] alone: a record whose MAC is the digest, under the key that
    [packBase64] decodes, of the buffer of the message with the header id
    OrigId is accepted, whatever header id the message arrives with, and the
    message that the call has worked on has the header id OrigId and the
    last additional record removed. *)
Lemma Verify_accepts_decoded_key_mac `{Package}
    (rr msg : ptr) (secret : string) (st : State) key r m0 t (id : Z) buf :
  packBase64 (list_byte_of_string secret) = Some key ->
  tsigs st !! rr = Some r ->
  Id (MsgHdr m0) = OrigId r ->
  build r m0 = Built buf ->
  MAC r = mac_of key buf ->
  Rrtype (Header t) = TypeTSIG ->
  msgs st !! msg = Some (transmitted m0 t id) ->
  exists st',
    Verify rr msg secret st = Some (true, st') /\
    msgs st' !! msg = Some m0 /\
    Id (MsgHdr (transmitted m0 t id)) = id /\
    Extra (transmitted m0 t id) = Extra m0 ++ [t].
Proof.
  intros Hk Hr Hid Hb Hmac Ht Hm.
  rewrite (Verify_cases rr msg secret st key _ Hk Hm).
  rewrite (has_tsig_snoc (transmitted m0 t id) (Extra m0) t eq_refl).
  rewrite Ht, Z.eqb_refl, Hr. cbv zeta.
  rewrite (stripped_transmitted r m0 t id Hid), Hb, Hmac, String.eqb_refl.
  eexists. split; [reflexivity|].
  split; [rewrite msgs_log, msgs_with_msg; apply lookup_insert_eq|].
  split; reflexivity.
Qed.

(** ** Sign, attach, verify *)

Lemma stripped_attached `{MsgShape} (r : RR_TSIG) (m : Msg) (t : RR) :
  OrigId r = Id (MsgHdr m) ->
  stripped r (set_Extra (Extra m ++ [t]) m) = m.
Proof.
  intros Hid. destruct m as [[i h] s e]. cbn in Hid. subst i.
  unfold stripped, set_Extra, set_Id. cbn.
  now rewrite take_all_but_last.
Qed.

(** The round trip accepts exactly when the key that [Verify] decodes gives
    the digest that the key of [Generate] gave. *)
Lemma roundtrip_result `{Package}
    (rr msg : ptr) (secret : string) (st : State) r m buf :
  tsigs st !! rr = Some r ->
  msgs st !! msg = Some m ->
  build r m = Built buf ->
  Rrtype (Hdr r) = TypeTSIG ->
  result (roundtrip rr msg secret) st =
    Some match packBase64 (list_byte_of_string secret) with
         | None => false
         | Some key =>
             String.eqb
               (mac_of key buf)
               (mac_of (list_byte_of_string
                          (unpackBase64 (list_byte_of_string secret))) buf)
         end.
Proof.
  intros Hr Hm Hb Ht. unfold result, roundtrip.
  rewrite bind_run, (Generate_run rr msg secret st r m Hr Hm), Hb.
  cbv beta iota zeta. cbn [negb]. rewrite bind_run. unfold attach.
  repeat mstep.
  set (key0 := list_byte_of_string (unpackBase64 (list_byte_of_string secret))).
  set (r' := completed r (mac_of key0 buf) (Id (MsgHdr m))).
  set (st1 := with_tsig rr r' _).
  set (m' := set_Extra (Extra m ++ [RR_tsig r']) m).
  destruct (packBase64 (list_byte_of_string secret)) as [key|] eqn:Hk.
  2: { now rewrite Verify_bad_secret by exact Hk. }
  assert (Hm' : msgs (with_msg msg m' st1) !! msg = Some m')
    by (rewrite msgs_with_msg; apply lookup_insert_eq).
  assert (Hr' : tsigs (with_msg msg m' st1) !! rr = Some r')
    by (unfold st1; rewrite tsigs_with_msg, tsigs_with_tsig;
        apply lookup_insert_eq).
  pose proof (Verify_result rr msg secret _ key m' (Extra m) (RR_tsig r') r'
                Hk Hm' eq_refl Ht Hr') as Hv.
  unfold result in Hv. rewrite Hv. unfold m'.
  rewrite (stripped_attached r' m (RR_tsig r') eq_refl).
  unfold r' at 1. rewrite build_completed, Hb. reflexivity.
Qed.

Lemma roundtrip_accepts_when_keys_agree `{Package}
    (rr msg : ptr) (secret : string) (st : State) r m buf :
  tsigs st !! rr = Some r ->
  msgs st !! msg = Some m ->
  build r m = Built buf ->
  Rrtype (Hdr r) = TypeTSIG ->
  packBase64 (list_byte_of_string secret)
  = Some (list_byte_of_string (unpackBase64 (list_byte_of_string secret))) ->
  result (roundtrip rr msg secret) st = Some true.
Proof.
  intros Hr Hm Hb Ht Hk.
  rewrite (roundtrip_result rr msg secret st r m buf Hr Hm Hb Ht), Hk.
  now rewrite String.eqb_refl.
Qed.

(** C1. The round trip at a well-formed message and record and the valid
    base64 secret AAAA: the secret decodes, [Generate] succeeds, and
    [Verify] on the message with the completed record attached rejects.
    [Generate] keys the digest with the result of [unpackBase64], the base64
    text of the secret's characters, and [Verify] with the result of
    [packBase64], the three bytes that the secret stands for. *)
Theorem roundtrip_rejects_valid_secret :
  packBase64 (list_byte_of_string Sample.secret) = Some Sample.key /\
  unpackBase64 (list_byte_of_string Sample.secret) = "QUFBQQ=="%string /\
  Pack Sample.msg <> None /\
  Rrtype (Hdr Sample.rec) = TypeTSIG /\
  result (Generate Sample.rrp Sample.msgp Sample.secret) Sample.st0
  = Some true /\
  result (roundtrip Sample.rrp Sample.msgp Sample.secret) Sample.st0
  = Some false.
Proof. vm_compute. repeat split; try reflexivity. discriminate. Qed.

Lemma attach_run `{MsgShape} (rr msg : ptr) (st : State) r m :
  tsigs st !! rr = Some r ->
  msgs st !! msg = Some m ->
  attach rr msg st
  = Some (tt, with_msg msg (set_Extra (Extra m ++ [RR_tsig r]) m) st).
Proof. intros Hr Hm. unfold attach. now repeat mstep. Qed.

(** The rewritten header id changes nothing: the forwarded flow has the
    verdict of the round trip. *)
Lemma forwarded_as_roundtrip `{Package}
    (rr msg : ptr) (secret : string) (id : Z) (st : State) r m :
  tsigs st !! rr = Some r ->
  msgs st !! msg = Some m ->
  result (forwarded rr msg secret id) st = result (roundtrip rr msg secret) st.
Proof.
  intros Hr Hm. unfold result, forwarded, roundtrip.
  rewrite !bind_run, (Generate_run rr msg secret st r m Hr Hm).
  destruct (build r m) as [| |buf]; [reflexivity|reflexivity|].
  cbv beta iota zeta. cbn [negb].
  set (r' := completed r _ _). set (st1 := with_tsig rr r' _).
  assert (Hr1 : tsigs st1 !! rr = Some r')
    by (unfold st1; rewrite tsigs_with_tsig; apply lookup_insert_eq).
  assert (Hm1 : msgs st1 !! msg = Some m) by exact Hm.
  rewrite !bind_run, (attach_run rr msg st1 r' m Hr1 Hm1).
  cbv beta iota.
  set (m' := set_Extra _ m). set (st2 := with_msg msg m' st1).
  assert (Hm2 : msgs st2 !! msg = Some m')
    by (unfold st2; rewrite msgs_with_msg; apply lookup_insert_eq).
  exact (Verify_ignores_header_id rr msg secret st2 m' id Hm2).
Qed.

(** C5. A message with header id 1000 is signed with [Generate] under the
    valid base64 secret AAAA, the completed record is attached, and a
    forwarder rewrites the header id to 2000. The record keeps OrigId 1000,
    and [Verify] sets the header id of the message back to 1000 and removes
    the record, as it should; all the same it rejects. The digest that
    [Generate] stored is keyed with the result of [unpackBase64], and the
    digest that [Verify] computes with the result of [packBase64]. *)
Theorem forwarded_message_rejected :
  packBase64 (list_byte_of_string Sample.secret) = Some Sample.key /\
  result (Generate Sample.rrp Sample.msgp Sample.secret) Sample.st0
  = Some true /\
  (st' ← final (Generate Sample.rrp Sample.msgp Sample.secret;;
                attach Sample.rrp Sample.msgp;;
                rewrite_id Sample.msgp 2000) Sample.st0;
   r ← tsigs st' !! Sample.rrp;
   m ← msgs st' !! Sample.msgp;
   Some (OrigId r, Id (MsgHdr m), length (Extra m)))
  = Some (1000, 2000, 1%nat) /\
  result (forwarded Sample.rrp Sample.msgp Sample.secret 2000) Sample.st0
  = Some false /\
  (st' ← final (forwarded Sample.rrp Sample.msgp Sample.secret 2000) Sample.st0;
   r ← tsigs st' !! Sample.rrp;
   m ← msgs st' !! Sample.msgp;
   Some (OrigId r, Id (MsgHdr m), length (Extra m)))
  = Some (1000, 1000, 0%nat).
Proof. vm_compute. repeat split; reflexivity. Qed.

(** C2. [Verify] on the forwarded message: the call accepts, and afterwards
    the caller's message has header id 1000 instead of 2000 and no
    additional record instead of one, so that it packs to other bytes.
    [msg2 := msg] copies the pointer, and the two assignments go through it
    to the caller's message. *)
Theorem Verify_changes_callers_message :
  exists st' before after,
    Verify Sample.rrp Sample.msgp Sample.secret Sample.st_forwarded
    = Some (true, st') /\
    msgs Sample.st_forwarded !! Sample.msgp = Some before /\
    msgs st' !! Sample.msgp = Some after /\
    Id (MsgHdr before) = 2000 /\ Id (MsgHdr after) = 1000 /\
    length (Extra before) = 1%nat /\ length (Extra after) = 0%nat /\
    Pack before <> Pack after.
Proof.
  eexists (log [Printf Sample.buf; Digest Sample.key Sample.buf]
             (with_msg Sample.msgp Sample.msg Sample.st_forwarded)),
          (transmitted Sample.msg (RR_tsig Sample.signed) 2000),
          Sample.msg.
  vm_compute. repeat split; try reflexivity. discriminate.
Qed.

(** C7. A secret that is not base64 text: [packBase64] reports the error and
    [Verify] rejects, but [Generate] succeeds and stores a digest. Nothing in
    [Generate] can fail on the secret: [unpackBase64] has no error result. *)
Theorem Generate_accepts_malformed_secret :
  packBase64 (list_byte_of_string "!!") = None /\
  result (Verify Sample.rrp Sample.msgp "!!") Sample.st_forwarded
  = Some false /\
  result (Generate Sample.rrp Sample.msgp "!!") Sample.st0 = Some true /\
  (st' ← final (Generate Sample.rrp Sample.msgp "!!") Sample.st0;
   r ← tsigs st' !! Sample.rrp;
   Some (MACSize r, to_hex (list_byte_of_string (MAC r))))
  = Some (16, "57e962458e41dfc1d5538aee984f2440"%string).
Proof. vm_compute. repeat split; reflexivity. Qed.

(** ** The digest algorithm *)

(** An algorithm name that is none of the declared ones does not make
    [Generate] fail: the record is completed with a 16-byte MAC. *)
Lemma Generate_signs_unknown_algorithm :
  recognized (Algorithm Sample.odd) = false /\
  result (Generate Sample.rrp Sample.msgp Sample.secret) Sample.st_odd
  = Some true /\
  (st' ← final (Generate Sample.rrp Sample.msgp Sample.secret) Sample.st_odd;
   r ← tsigs st' !! Sample.rrp;
   Some (MACSize r)) = Some 16.
Proof. vm_compute. repeat split; reflexivity. Qed.

(** C8, as amended. Whatever algorithm name the record carries, declared or
    not, [Generate] succeeds as soon as the buffer is built and stores the
    HMAC-MD5 digest of the buffer, and [Verify] compares the MAC of the
    record with the HMAC-MD5 digest of the buffer. The algorithm name only
    contributes its bytes to the buffer. *)
Theorem digest_is_always_hmac_md5 `{Package}
    (rr msg : ptr) (secret : string) (st : State) r m buf :
  tsigs st !! rr = Some r ->
  msgs st !! msg = Some m ->
  build r m = Built buf ->
  (exists st' r',
     Generate rr msg secret st = Some (true, st') /\
     tsigs st' !! rr = Some r' /\
     MAC r' = string_of_list_byte
                (hmacMD5 (list_byte_of_string
                            (unpackBase64 (list_byte_of_string secret))) buf)) /\
  (forall key t id,
     packBase64 (list_byte_of_string secret) = Some key ->
     Rrtype (Header t) = TypeTSIG ->
     Id (MsgHdr m) = OrigId r ->
     result (Verify rr msg secret) (with_msg msg (transmitted m t id) st)
     = Some (String.eqb (string_of_list_byte (hmacMD5 key buf)) (MAC r))).
Proof.
  intros Hr Hm Hb. split.
  - rewrite (Generate_run rr msg secret st r m Hr Hm), Hb.
    eexists _, _. split; [reflexivity|].
    split; [rewrite tsigs_with_tsig; apply lookup_insert_eq|reflexivity].
  - intros key t id Hk Ht Hid.
    assert (Hm' : msgs (with_msg msg (transmitted m t id) st) !! msg
                  = Some (transmitted m t id))
      by (rewrite msgs_with_msg; apply lookup_insert_eq).
    rewrite (Verify_result rr msg secret _ key _ (Extra m) t r
               Hk Hm' eq_refl Ht Hr).
    now rewrite (stripped_transmitted r m t id Hid), Hb.
Qed.

Lemma digest_is_always_hmac_md5_witness :
  (exists st' r',
     Generate Sample.rrp Sample.msgp Sample.secret Sample.st_odd
     = Some (true, st') /\
     tsigs st' !! Sample.rrp = Some r' /\
     MAC r' = string_of_list_byte
                (hmacMD5 (list_byte_of_string
                            (unpackBase64 (list_byte_of_string Sample.secret)))
                         Sample.buf_odd)) /\
  (forall key t id,
     packBase64 (list_byte_of_string Sample.secret) = Some key ->
     Rrtype (Header t) = TypeTSIG ->
     Id (MsgHdr Sample.msg) = OrigId Sample.odd ->
     result (Verify Sample.rrp Sample.msgp Sample.secret)
       (with_msg Sample.msgp (transmitted Sample.msg t id) Sample.st_odd)
     = Some (String.eqb (string_of_list_byte (hmacMD5 key Sample.buf_odd))
               (MAC Sample.odd))).
Proof.
  apply (digest_is_always_hmac_md5 Sample.rrp Sample.msgp Sample.secret
           Sample.st_odd Sample.odd Sample.msg Sample.buf_odd).
  - reflexivity.
  - reflexivity.
  - vm_compute. reflexivity.
Defined.

(** * Further properties *)

(** ** The footprint of tsigToBuf *)

Lemma tsigToBuf_outcome `{Package} (rr msg : ptr) (st : State) :
  tsigToBuf rr msg st = None \/
  tsigToBuf rr msg st = Some (([], false), st) \/
  exists buf, tsigToBuf rr msg st = Some ((buf, true), log [Printf buf] st).
Proof.
  destruct (tsigs st !! rr) as [r|] eqn:Hr.
  2: { left. now apply tsigToBuf_no_record. }
  destruct (msgs st !! msg) as [m|] eqn:Hm.
  - rewrite (tsigToBuf_run rr msg st r m Hr Hm).
    destruct (build r m) as [| |buf]; eauto.
  - unfold tsigToBuf, slice_to. do 2 mstep.
    destruct (packStruct (tsigWire r) (make 4096) 0) as [[b n] ok1].
    destruct ok1; cbn [negb]; [|now (right; left)].
    left.
    destruct ((0 <=? n) && (n <=? Z.of_nat (length b))); [|reflexivity].
    do 3 mstep. unfold load_msg. now rewrite Hm.
Qed.

(** X1. A call of [tsigToBuf] that returns leaves every record and every
    message as it was. It prints once, the buffer, when it succeeds, and
    nothing when it fails; on failure the buffer it returns is nil. *)
Theorem tsigToBuf_footprint `{Package}
    (rr msg : ptr) (st st' : State) (b : list byte) (ok : bool) :
  tsigToBuf rr msg st = Some ((b, ok), st') ->
  msgs st' = msgs st /\
  tsigs st' = tsigs st /\
  trace st' = trace st ++ (if ok then [Printf b] else []) /\
  (ok = false -> b = [] /\ st' = st).
Proof.
  intros Hrun.
  destruct (tsigToBuf_outcome rr msg st) as [Ho|[Ho|(buf & Ho)]];
    rewrite Ho in Hrun; [discriminate| |]; injection Hrun as <- <- <-.
  - repeat split; try reflexivity. now rewrite app_nil_r.
  - repeat split; try reflexivity; discriminate.
Qed.

Lemma tsigToBuf_footprint_witness :
  msgs (log [Printf Sample.buf] Sample.st0) = msgs Sample.st0 /\
  tsigs (log [Printf Sample.buf] Sample.st0) = tsigs Sample.st0 /\
  trace (log [Printf Sample.buf] Sample.st0)
  = trace Sample.st0 ++ [Printf Sample.buf] /\
  (true = false ->
   Sample.buf = [] /\ log [Printf Sample.buf] Sample.st0 = Sample.st0).
Proof.
  apply (tsigToBuf_footprint Sample.rrp Sample.msgp Sample.st0
           (log [Printf Sample.buf] Sample.st0) Sample.buf true).
  vm_compute. reflexivity.
Defined.

(** ** Generate: failure *)

(** X2. [Generate] returns false exactly when the buffer cannot be built,
    that is when [packStruct] or [Pack] reports failure, and it then leaves
    the state as it was: the record keeps its MAC, MACSize and OrigId,
    nothing is printed and no digest is computed. *)
Theorem Generate_fails_cleanly `{Package}
    (rr msg : ptr) (secret : string) (st : State) r m :
  tsigs st !! rr = Some r ->
  msgs st !! msg = Some m ->
  forall st',
    Generate rr msg secret st = Some (false, st') <->
    build r m = Fails /\ st' = st.
Proof.
  intros Hr Hm st'.
  rewrite (Generate_run rr msg secret st r m Hr Hm).
  destruct (build r m) as [| |buf]; split.
  - discriminate.
  - intros [Hb _]. discriminate.
  - intros Hrun. injection Hrun as <-. auto.
  - intros [_ ->]. reflexivity.
  - discriminate.
  - intros [Hb _]. discriminate.
Qed.

Lemma Generate_fails_cleanly_witness :
  Generate Sample.rrp Sample.msgp Sample.secret More.st_broken
  = Some (false, More.st_broken).
Proof.
  apply (proj2 (Generate_fails_cleanly Sample.rrp Sample.msgp Sample.secret
                  More.st_broken More.broken Sample.msg
                  eq_refl eq_refl More.st_broken)).
  split; [vm_compute; reflexivity | reflexivity].
Defined.

(** ** Verify: footprint, acceptance, panics, a second call *)

Lemma Verify_no_message `{Package}
    (rr msg : ptr) (secret : string) (st : State) key :
  packBase64 (list_byte_of_string secret) = Some key ->
  msgs st !! msg = None ->
  Verify rr msg secret st = None.
Proof.
  intros Hk Hm. unfold Verify. rewrite Hk, bind_run.
  unfold load_msg. now rewrite Hm.
Qed.

(** X4. A call of [Verify] that returns leaves every record as it was, the
    argument record included, and every message other than its argument.
    Either the whole state is as before, or the argument message had a last
    additional record of the TSIG type and is now that message with the
    header id set to OrigId and the last additional record removed. *)
Theorem Verify_footprint `{Package}
    (rr msg : ptr) (secret : string) (st st' : State) (b : bool) :
  Verify rr msg secret st = Some (b, st') ->
  tsigs st' = tsigs st /\
  (forall p, p <> msg -> msgs st' !! p = msgs st !! p) /\
  (st' = st \/
   exists r m,
     tsigs st !! rr = Some r /\ msgs st !! msg = Some m /\
     has_tsig m = true /\
     msgs st' = <[msg := stripped r m]> (msgs st)).
Proof.
  intros Hrun.
  destruct (packBase64 (list_byte_of_string secret)) as [key|] eqn:Hk.
  2: { rewrite Verify_bad_secret in Hrun by exact Hk.
       injection Hrun as _ <-. auto. }
  destruct (msgs st !! msg) as [m|] eqn:Hm.
  2: { rewrite (Verify_no_message rr msg secret st key Hk Hm) in Hrun.
       discriminate. }
  rewrite (Verify_cases rr msg secret st key m Hk Hm) in Hrun.
  destruct (has_tsig m) eqn:Ht.
  2: { injection Hrun as _ <-. auto. }
  destruct (tsigs st !! rr) as [r|] eqn:Hr; [|discriminate].
  cbv zeta in Hrun.
  assert (Hst : msgs st' = <[msg := stripped r m]> (msgs st) /\
                tsigs st' = tsigs st).
  { destruct (build r (stripped r m)) as [| |buf]; [discriminate| |].
    - injection Hrun as _ <-. split; reflexivity.
    - set (v := String.eqb _ _) in Hrun. clearbody v.
      injection Hrun as _ <-. split; reflexivity. }
  destruct Hst as [Hmsgs Htsigs].
  split; [exact Htsigs|]. split.
  - intros p Hp. rewrite Hmsgs. now apply lookup_insert_ne.
  - right. exists r, m. auto.
Qed.

Lemma Verify_footprint_witness :
  tsigs More.st_verified = tsigs Sample.st_forwarded /\
  (forall p, p <> Sample.msgp ->
     msgs More.st_verified !! p = msgs Sample.st_forwarded !! p) /\
  (More.st_verified = Sample.st_forwarded \/
   exists r m,
     tsigs Sample.st_forwarded !! Sample.rrp = Some r /\
     msgs Sample.st_forwarded !! Sample.msgp = Some m /\
     has_tsig m = true /\
     msgs More.st_verified
     = <[Sample.msgp := stripped r m]> (msgs Sample.st_forwarded)).
Proof.
  apply (Verify_footprint Sample.rrp Sample.msgp Sample.secret
           Sample.st_forwarded More.st_verified true).
  vm_compute. reflexivity.
Defined.

Lemma Verify_accept_inv `{Package}
    (rr msg : ptr) (secret : string) (st : State) :
  result (Verify rr msg secret) st = Some true ->
  exists key m r buf,
    packBase64 (list_byte_of_string secret) = Some key /\
    msgs st !! msg = Some m /\
    has_tsig m = true /\
    tsigs st !! rr = Some r /\
    build r (stripped r m) = Built buf /\
    MAC r = mac_of key buf.
Proof.
  unfold result. intros Hacc.
  destruct (packBase64 (list_byte_of_string secret)) as [key|] eqn:Hk.
  2: { rewrite Verify_bad_secret in Hacc by exact Hk. discriminate. }
  destruct (msgs st !! msg) as [m|] eqn:Hm.
  2: { rewrite (Verify_no_message rr msg secret st key Hk Hm) in Hacc.
       discriminate. }
  rewrite (Verify_cases rr msg secret st key m Hk Hm) in Hacc.
  destruct (has_tsig m) eqn:Ht; [|discriminate].
  destruct (tsigs st !! rr) as [r|] eqn:Hr; [|discriminate].
  cbv zeta in Hacc.
  destruct (build r (stripped r m)) as [| |buf] eqn:Hb; try discriminate.
  destruct (String.eqb (mac_of key buf) (MAC r)) eqn:He; [|discriminate].
  apply String.eqb_eq in He.
  exists key, m, r, buf. repeat split; try reflexivity; try assumption.
  now symmetry.
Qed.

(** X5. [Verify] accepts exactly when the secret decodes, the last
    additional record of the message has the TSIG type, and the MAC of the
    argument record is the HMAC-MD5 digest, under the decoded secret, of the
    buffer built from the record and the message with the header id set to
    OrigId and the last additional record removed. *)
Theorem Verify_accepts_iff `{Package}
    (rr msg : ptr) (secret : string) (st : State) :
  result (Verify rr msg secret) st = Some true <->
  exists key m r buf,
    packBase64 (list_byte_of_string secret) = Some key /\
    msgs st !! msg = Some m /\
    has_tsig m = true /\
    tsigs st !! rr = Some r /\
    build r (stripped r m) = Built buf /\
    MAC r = string_of_list_byte (hmacMD5 key buf).
Proof.
  split; [apply Verify_accept_inv|].
  intros (key & m & r & buf & Hk & Hm & Ht & Hr & Hb & Hmac).
  unfold result.
  rewrite (Verify_cases rr msg secret st key m Hk Hm), Ht, Hr. cbv zeta.
  rewrite Hb, Hmac. unfold mac_of. now rewrite String.eqb_refl.
Qed.

(** X6. A record whose MAC is not 16 bytes long is never accepted. *)
Theorem Verify_rejects_other_mac_length `{Package}
    (rr msg : ptr) (secret : string) (st : State) r :
  tsigs st !! rr = Some r ->
  String.length (MAC r) <> 16%nat ->
  result (Verify rr msg secret) st <> Some true.
Proof.
  intros Hr Hlen Hacc.
  destruct (Verify_accept_inv rr msg secret st Hacc)
    as (key & m & r' & buf & _ & _ & _ & Hr' & _ & Hmac).
  rewrite Hr in Hr'. injection Hr' as <-.
  apply Hlen. rewrite Hmac. apply mac_of_length.
Qed.

Lemma Verify_rejects_other_mac_length_witness :
  result (Verify Sample.rrp Sample.msgp Sample.secret) More.st_short
  <> Some true.
Proof.
  apply (Verify_rejects_other_mac_length Sample.rrp Sample.msgp Sample.secret
           More.st_short More.short).
  - reflexivity.
  - vm_compute. discriminate.
Defined.

Lemma Verify_accepts_iff_witness :
  result (Verify Sample.rrp Sample.msgp Sample.secret) Sample.st_forwarded
  = Some true.
Proof.
  apply (proj2 (Verify_accepts_iff Sample.rrp Sample.msgp Sample.secret
                  Sample.st_forwarded)).
  exists Sample.key, (transmitted Sample.msg (RR_tsig Sample.signed) 2000),
         Sample.signed, Sample.buf.
  repeat split; vm_compute; reflexivity.
Defined.

Lemma build_ext `{Package} (r1 r2 : RR_TSIG) (m : Msg) :
  tsigWire r1 = tsigWire r2 -> build r1 m = build r2 m.
Proof. intros Hw. unfold build. now rewrite Hw. Qed.

(** X7. Of the argument record, [Verify] reads the nine signed fields, the
    MAC and OrigId, and nothing else: two records that agree on these get
    the same verdict. The MACSize of the record is never compared with the
    length of its MAC, and the record type in its header is never looked
    at. *)
Theorem Verify_reads_record_through `{Package}
    (rr msg : ptr) (secret : string) (st1 st2 : State) r1 r2 :
  tsigs st1 !! rr = Some r1 ->
  tsigs st2 !! rr = Some r2 ->
  msgs st1 !! msg = msgs st2 !! msg ->
  tsigWire r1 = tsigWire r2 ->
  MAC r1 = MAC r2 ->
  OrigId r1 = OrigId r2 ->
  result (Verify rr msg secret) st1 = result (Verify rr msg secret) st2.
Proof.
  intros Hr1 Hr2 Hmm Hw Hmac Hid. unfold result.
  destruct (packBase64 (list_byte_of_string secret)) as [key|] eqn:Hk.
  2: { now rewrite !Verify_bad_secret by exact Hk. }
  destruct (msgs st2 !! msg) as [m|] eqn:Hm.
  2: { now rewrite !(Verify_no_message rr msg secret _ key Hk). }
  rewrite (Verify_cases rr msg secret st1 key m Hk Hmm).
  rewrite (Verify_cases rr msg secret st2 key m Hk Hm).
  destruct (has_tsig m); [|reflexivity].
  rewrite Hr1, Hr2. cbv zeta.
  replace (stripped r1 m) with (stripped r2 m)
    by (unfold stripped; now rewrite Hid).
  rewrite (build_ext r1 r2 (stripped r2 m) Hw), Hmac.
  destruct (build r2 (stripped r2 m)); reflexivity.
Qed.

Lemma Verify_reads_record_through_witness :
  result (Verify Sample.rrp Sample.msgp Sample.secret) Sample.st_forwarded
  = result (Verify Sample.rrp Sample.msgp Sample.secret) More.st_resized.
Proof.
  apply (Verify_reads_record_through Sample.rrp Sample.msgp Sample.secret
           Sample.st_forwarded More.st_resized Sample.signed More.resized);
    reflexivity.
Defined.

(** X8. [Verify] panics when the secret decodes and the message pointer
    is nil. It also panics when the secret decodes, the last additional
    record of the message has the TSIG type, and the record pointer is nil
    or [packStruct] returns an offset outside the buffer. *)
Theorem Verify_panics_when `{Package}
    (rr msg : ptr) (secret : string) (st : State) key :
  packBase64 (list_byte_of_string secret) = Some key ->
  (msgs st !! msg = None \/
   exists m,
     msgs st !! msg = Some m /\ has_tsig m = true /\
     (tsigs st !! rr = None \/
      exists r, tsigs st !! rr = Some r /\ build r (stripped r m) = Panics)) ->
  Verify rr msg secret st = None.
Proof.
  intros Hk [Hm|(m & Hm & Ht & Hc)].
  - now apply (Verify_no_message rr msg secret st key).
  - rewrite (Verify_cases rr msg secret st key m Hk Hm), Ht.
    destruct Hc as [Hr|(r & Hr & Hb)]; rewrite Hr; [reflexivity|].
    cbv zeta. now rewrite Hb.
Qed.

Lemma Verify_panics_when_witness :
  Verify Sample.rrp Sample.msgp Sample.secret More.st_no_record = None.
Proof.
  apply (Verify_panics_when Sample.rrp Sample.msgp Sample.secret
           More.st_no_record Sample.key).
  - vm_compute. reflexivity.
  - right. exists (transmitted Sample.msg (RR_tsig Sample.signed) 1000).
    split; [reflexivity|]. split; [reflexivity|]. left. reflexivity.
Defined.

(** X9. [Verify] cannot be called twice on one message. When the message
    passes the checks of the first call and the record before its last
    additional record, if there is one, is not of the TSIG type, a second
    call with the same arguments rejects, whatever the first verdict was,
    and leaves the state as the first call left it: the first call has
    removed the TSIG record from the caller's message. *)
Theorem Verify_twice_rejects `{Package}
    (rr msg : ptr) (secret : string) (st st' : State) key m l t (b : bool) :
  packBase64 (list_byte_of_string secret) = Some key ->
  msgs st !! msg = Some m ->
  Extra m = l ++ [t] ->
  Rrtype (Header t) = TypeTSIG ->
  (l = [] \/ exists l' t', l = l' ++ [t'] /\ Rrtype (Header t') <> TypeTSIG) ->
  Verify rr msg secret st = Some (b, st') ->
  Verify_twice rr msg secret st = Some (false, st').
Proof.
  intros Hk Hm He Ht Hl Hrun.
  assert (Htsig : has_tsig m = true)
    by (rewrite (has_tsig_snoc m l t He); now apply Z.eqb_eq).
  destruct (Verify_writes_through rr msg secret st st' key m b Hk Hm Htsig Hrun)
    as (r & Hr & Hm').
  unfold Verify_twice. rewrite bind_run, Hrun.
  apply (Verify_unsigned rr msg secret st' (stripped r m) Hm').
  assert (Hs : Extra (stripped r m) = l).
  { unfold stripped, set_Extra, set_Id. cbn [Extra].
    rewrite He. apply take_all_but_last. }
  destruct Hl as [->|(l' & t' & -> & Ht')].
  - now apply has_tsig_nil.
  - rewrite (has_tsig_snoc _ l' t' Hs). now apply Z.eqb_neq.
Qed.

Lemma Verify_twice_rejects_witness :
  Verify_twice Sample.rrp Sample.msgp Sample.secret Sample.st_forwarded
  = Some (false, More.st_verified).
Proof.
  apply (Verify_twice_rejects Sample.rrp Sample.msgp Sample.secret
           Sample.st_forwarded More.st_verified Sample.key
           (transmitted Sample.msg (RR_tsig Sample.signed) 2000)
           [] (RR_tsig Sample.signed) true).
  - vm_compute. reflexivity.
  - reflexivity.
  - reflexivity.
  - reflexivity.
  - left. reflexivity.
  - vm_compute. reflexivity.
Defined.

(** ** Sign, attach, verify: when it accepts *)

Lemma mac_of_inj (key1 key2 buf1 buf2 : list byte) :
  mac_of key1 buf1 = mac_of key2 buf2 <-> hmacMD5 key1 buf1 = hmacMD5 key2 buf2.
Proof.
  unfold mac_of. split; [|now intros ->].
  intros He. apply (f_equal list_byte_of_string) in He.
  now rewrite !bytes_of_string_of_bytes in He.
Qed.

(** X10. A record of the TSIG type is signed with [Generate], attached to
    the message and checked with [Verify] under the same secret. The check
    accepts exactly when [packBase64] decodes the secret and the decoded
    key gives the same HMAC-MD5 digest of the buffer as the key that
    [Generate] took from [unpackBase64]. *)
Theorem roundtrip_accepts_iff `{Package}
    (rr msg : ptr) (secret : string) (st : State) r m buf :
  tsigs st !! rr = Some r ->
  msgs st !! msg = Some m ->
  build r m = Built buf ->
  Rrtype (Hdr r) = TypeTSIG ->
  result (roundtrip rr msg secret) st = Some true <->
  exists key,
    packBase64 (list_byte_of_string secret) = Some key /\
    hmacMD5 key buf
    = hmacMD5 (list_byte_of_string (unpackBase64 (list_byte_of_string secret)))
              buf.
Proof.
  intros Hr Hm Hb Ht.
  rewrite (roundtrip_result rr msg secret st r m buf Hr Hm Hb Ht).
  destruct (packBase64 (list_byte_of_string secret)) as [key|].
  - destruct (String.eqb _ _) eqn:He.
    + apply String.eqb_eq, mac_of_inj in He. split; [|reflexivity].
      intros _. exists key. auto.
    + apply String.eqb_neq in He. split; [discriminate|].
      intros (key' & Hk & Hd). injection Hk as <-.
      apply mac_of_inj in Hd. contradiction.
  - split; [discriminate|]. intros (? & ? & _). discriminate.
Qed.

Lemma roundtrip_accepts_iff_witness :
  result (roundtrip Sample.rrp Sample.msgp "") Sample.st0 = Some true <->
  exists key,
    packBase64 (list_byte_of_string "") = Some key /\
    hmacMD5 key Sample.buf
    = hmacMD5 (list_byte_of_string (unpackBase64 (list_byte_of_string "")))
              Sample.buf.
Proof.
  apply (roundtrip_accepts_iff Sample.rrp Sample.msgp "" Sample.st0
           Sample.rec Sample.msg Sample.buf).
  - reflexivity.
  - reflexivity.
  - vm_compute. reflexivity.
  - reflexivity.
Defined.

(** X11. [Generate] neither sets nor checks the record type in the header of
    the record. A record whose header type is not TSIG is signed all the
    same, and [Verify] then rejects the message that carries it, whatever
    the secret is. *)
Theorem roundtrip_needs_tsig_type `{Package}
    (rr msg : ptr) (secret : string) (st : State) r m buf :
  tsigs st !! rr = Some r ->
  msgs st !! msg = Some m ->
  build r m = Built buf ->
  Rrtype (Hdr r) <> TypeTSIG ->
  result (Generate rr msg secret) st = Some true /\
  result (roundtrip rr msg secret) st = Some false.
Proof.
  intros Hr Hm Hb Ht. split.
  { now rewrite (Generate_result rr msg secret st r m Hr Hm), Hb. }
  unfold result, roundtrip.
  rewrite bind_run, (Generate_run rr msg secret st r m Hr Hm), Hb.
  cbv beta iota zeta. cbn [negb]. rewrite bind_run. unfold attach.
  repeat mstep.
  set (key0 := list_byte_of_string (unpackBase64 (list_byte_of_string secret))).
  set (r' := completed r (mac_of key0 buf) (Id (MsgHdr m))).
  set (st1 := with_tsig rr r' _).
  set (m' := set_Extra (Extra m ++ [RR_tsig r']) m).
  assert (Hm' : msgs (with_msg msg m' st1) !! msg = Some m')
    by (rewrite msgs_with_msg; apply lookup_insert_eq).
  rewrite (Verify_unsigned rr msg secret _ m' Hm'); [reflexivity|].
  rewrite (has_tsig_snoc m' (Extra m) (RR_tsig r') eq_refl).
  now apply Z.eqb_neq.
Qed.

Lemma roundtrip_needs_tsig_type_witness :
  result (Generate Sample.rrp Sample.msgp "") More.st_untyped = Some true /\
  result (roundtrip Sample.rrp Sample.msgp "") More.st_untyped = Some false.
Proof.
  apply (roundtrip_needs_tsig_type Sample.rrp Sample.msgp "" More.st_untyped
           More.untyped Sample.msg Sample.buf).
  - reflexivity.
  - reflexivity.
  - vm_compute. reflexivity.
  - vm_compute. discriminate.
Defined.

(** ** The display form *)

Lemma append_inv_head (a x y : string) :
  (a ++ x)%string = (a ++ y)%string -> x = y.
Proof.
  induction a as [|c a IH]; cbn; [auto|].
  intros He. injection He as He. auto.
Qed.

Lemma append_inv_field (a x y : string) :
  (a ++ " " ++ x)%string = (a ++ " " ++ y)%string -> x = y.
Proof.
  intros He. apply append_inv_head in He. cbn in He. now injection He.
Qed.

(** Two texts that start with a field without spaces and a space have the
    same first field and the same rest. *)
Lemma split_field (s1 s2 t1 t2 : string) :
  no_space s1 = true ->
  no_space s2 = true ->
  (s1 ++ " " ++ t1)%string = (s2 ++ " " ++ t2)%string ->
  s1 = s2 /\ t1 = t2.
Proof.
  revert s2. induction s1 as [|c s1 IH]; intros [|d s2] H1 H2 He; cbn in *.
  - now injection He.
  - injection He as <- _. discriminate.
  - injection He as -> _. discriminate.
  - injection He as <- He.
    apply andb_prop in H1 as [_ H1]. apply andb_prop in H2 as [_ H2].
    destruct (IH s2 H1 H2 He) as [-> ->]. auto.
Qed.

Lemma no_space_uint (d : Decimal.uint) :
  no_space (DecimalString.NilEmpty.string_of_uint d) = true.
Proof. induction d; cbn; auto. Qed.

Lemma no_space_Itoa (z : Z) : no_space (Itoa z) = true.
Proof.
  unfold Itoa, DecimalString.NilZero.string_of_int,
    DecimalString.NilZero.string_of_uint.
  destruct (Z.to_int z) as [d|d]; destruct d;
    try reflexivity; try apply (no_space_uint (_ d));
    change (no_space (String "-" ?s)) with (no_space s);
    try reflexivity; apply (no_space_uint (_ d)).
Qed.

Lemma to_int_nonnil (z : Z) :
  Z.to_int z <> Decimal.Pos Decimal.Nil /\ Z.to_int z <> Decimal.Neg Decimal.Nil.
Proof.
  destruct z as [|p|p]; cbn; split; try discriminate;
    intros He; injection He as He;
    now apply DecimalPos.Unsigned.to_uint_nonnil in He.
Qed.

Lemma Itoa_inj (a b : Z) : Itoa a = Itoa b -> a = b.
Proof.
  intros He. apply DecimalZ.to_int_inj.
  destruct (to_int_nonnil a) as [Ha1 Ha2].
  destruct (to_int_nonnil b) as [Hb1 Hb2].
  pose proof (DecimalString.NilZero.isi (Z.to_int a) Ha1 Ha2) as Ia.
  pose proof (DecimalString.NilZero.isi (Z.to_int b) Hb1 Hb2) as Ib.
  unfold Itoa in He. rewrite He in Ia. congruence.
Qed.

Lemma hex_pair_no_space (x : byte) :
  negb (is_space (upper (hex_digit (byte_to_Z x / 16))))
  && negb (is_space (upper (hex_digit (byte_to_Z x mod 16)))) = true.
Proof. destruct x; reflexivity. Qed.

Lemma hex_pair_value (x : byte) :
  byte_of_Z (16 * unhex (upper (hex_digit (byte_to_Z x / 16)))
             + unhex (upper (hex_digit (byte_to_Z x mod 16)))) = x.
Proof. destruct x; reflexivity. Qed.

Lemma no_space_hex (b : list byte) :
  no_space (ToUpper (EncodeToString b)) = true.
Proof.
  induction b as [|x b IH]; [reflexivity|].
  cbn [EncodeToString to_hex ToUpper no_space].
  fold (EncodeToString b). rewrite IH, andb_true_r.
  apply hex_pair_no_space.
Qed.

Lemma hex_inj (b1 b2 : list byte) :
  ToUpper (EncodeToString b1) = ToUpper (EncodeToString b2) -> b1 = b2.
Proof.
  revert b2. induction b1 as [|x b1 IH]; intros [|y b2] He;
    cbn [EncodeToString to_hex ToUpper] in He; try discriminate;
    [reflexivity|].
  injection He as Hhi Hlo He.
  rewrite <- (hex_pair_value x), <- (hex_pair_value y), Hhi, Hlo.
  f_equal. now apply IH.
Qed.

Lemma list_byte_of_string_inj (s1 s2 : string) :
  list_byte_of_string s1 = list_byte_of_string s2 -> s1 = s2.
Proof.
  intros He. apply (f_equal string_of_list_byte) in He.
  now rewrite !string_of_list_byte_of_string in He.
Qed.

(** X12. Of two records with the same header, algorithm name, signing time
    and fudge, the display form tells the rest apart: when [String] returns
    the same text for both, they have the same MAC, the same OrigId, the
    same Error and the same other data. MACSize and the declared length of
    the other data are not shown. *)
Theorem String_determines_rest `{MsgShape} `{Display}
    (rr : ptr) (st1 st2 : State) r1 r2 :
  tsigs st1 !! rr = Some r1 ->
  tsigs st2 !! rr = Some r2 ->
  Hdr r1 = Hdr r2 ->
  Algorithm r1 = Algorithm r2 ->
  TimeSigned r1 = TimeSigned r2 ->
  Fudge r1 = Fudge r2 ->
  result (RR_TSIG_String rr) st1 = result (RR_TSIG_String rr) st2 ->
  MAC r1 = MAC r2 /\ OrigId r1 = OrigId r2 /\ Error r1 = Error r2 /\
  OtherData r1 = OtherData r2.
Proof.
  intros Hr1 Hr2 Hh Ha Ht Hf. unfold result, RR_TSIG_String.
  rewrite !bind_run, (load_tsig_run rr st1 r1 Hr1), (load_tsig_run rr st2 r2 Hr2).
  rewrite !ret_run. cbn [fmap option_fmap option_map fst].
  intros He. injection He as He. unfold display in He.
  rewrite Hh, Ha, Ht, Hf in He.
  do 4 apply append_inv_field in He.
  apply split_field in He as [Hmac He]; try apply no_space_hex.
  apply split_field in He as [Hid He]; try apply no_space_Itoa.
  apply split_field in He as [Her He]; try apply no_space_Itoa.
  repeat split.
  - now apply list_byte_of_string_inj, hex_inj.
  - now apply Itoa_inj.
  - now apply Itoa_inj.
  - exact He.
Qed.

Lemma String_determines_rest_witness :
  MAC Sample.signed = MAC More.relabelled /\
  OrigId Sample.signed = OrigId More.relabelled /\
  Error Sample.signed = Error More.relabelled /\
  OtherData Sample.signed = OtherData More.relabelled.
Proof.
  apply (String_determines_rest (H0 := More.shown) Sample.rrp
           Sample.st_forwarded More.st_relabelled
           Sample.signed More.relabelled); reflexivity.
Defined.
